(** * OSM feature extraction: tag taxonomy, classification and geometry filter

    A shallow embedding of
    [sogreen_wp72/pipelines/osm_data_extraction/nodes.py], function
    [extract_selected_tags_from_osm_complete], and the properties its
    specification states about it.

    The two OSMnx calls of the function (geocoding the city and
    downloading the features) are external: the embedding takes the
    downloaded feature frame as an argument. *)

From Stdlib Require Import String Ascii List Bool.
From stdpp Require Import gmap strings list fin_maps pretty.

Local Open Scope string_scope.
Local Open Scope list_scope.

(** ** Python values, exceptions and insertion-ordered dictionaries *)

Module Py.

(** The exceptions the embedded code can raise. *)
Inductive exn : Type :=
| KeyError (key : string)
| AttributeError (attr : string).

(** A computation either returns or raises. *)
Inductive result (A : Type) : Type :=
| Ok (a : A)
| Raise (e : exn).
Global Arguments Ok {A} a.
Global Arguments Raise {A} e.

Definition bind {A B} (m : result A) (k : A → result B) : result B :=
  match m with
  | Ok a => k a
  | Raise e => Raise e
  end.

(** [for x in xs: body], threading the loop state; the first
    exception leaves the loop. *)
Fixpoint for_each {S A} (body : S → A → result S) (xs : list A) (s : S)
  : result S :=
  match xs with
  | [] => Ok s
  | x :: xs' => bind (body s x) (for_each body xs')
  end.

(** A [dict] with string keys, in insertion order. *)
Definition dict (V : Type) : Type := list (string * V).

Definition keys {V} (d : dict V) : list string := d.*1.

(** [k in d] *)
Definition contains {V} (d : dict V) (k : string) : bool :=
  bool_decide (k ∈ keys d).

(** [d.get(k)] *)
Fixpoint get {V} (d : dict V) (k : string) : option V :=
  match d with
  | [] => None
  | (k', v) :: d' => if decide (k' = k) then Some v else get d' k
  end.

(** [d[k]] *)
Definition getitem {V} (d : dict V) (k : string) : result V :=
  match get d k with
  | Some v => Ok v
  | None => Raise (KeyError k)
  end.

(** [d[k] = v]: an existing key keeps its position, a new key goes
    last. *)
Fixpoint setitem {V} (d : dict V) (k : string) (v : V) : dict V :=
  match d with
  | [] => [(k, v)]
  | (k', v') :: d' =>
      if decide (k' = k) then (k', v) :: d' else (k', v') :: setitem d' k v
  end.

End Py.

Import Py.

(** [x ← m; k] runs [m] and passes its value on; an exception of [m]
    is the exception of the whole. *)
Global Instance result_bind : MBind result := λ A B k m, Py.bind m k.
Global Instance result_ret : MRet result := λ A a, Ok a.

(** ** The tag configuration (parameter [tags]) *)

(** A geometry specification: a string (["area"], ["any"], ...) or a
    list of strings. *)
Inductive geometry_spec : Type :=
| GStr (s : string)
| GList (l : list string).

Global Instance geometry_spec_eq_dec : EqDecision geometry_spec.
Proof. solve_decision. Defined.

(** One [{"value": ..., "geometry": ...}] dictionary; [None] is a key
    that the dictionary does not have. *)
Record tag_spec : Type := TagSpec {
  value : option string;
  geometry : option geometry_spec;
}.

(** One [{"category": ..., "tags": {...}}] dictionary; both keys are
    read with [.get] and may be missing. *)
Record category_config : Type := CategoryConfig {
  category : option string;
  tags : option (dict (list tag_spec));
}.

(** [f"{tag_key}={tag_value}"] *)
Definition fmt_tag (tag_key tag_value : string) : string :=
  tag_key +:+ "=" +:+ tag_value.

(** The two tables built by lines 32-54. *)
Record tables : Type := Tables {
  osm_query_tags : dict (list string);
  geometry_lookup : gmap string geometry_spec;
}.

(** [tag_spec["value"]] and [tag_spec["geometry"]] *)
Definition spec_getitem {A} (field : option A) (key : string) : result A :=
  match field with
  | Some a => Ok a
  | None => Raise (KeyError key)
  end.

(** Body of [for tag_spec in tag_values] (lines 45-54). *)
Definition register_spec (tag_key : string) (t : tables) (spec : tag_spec)
  : result tables :=
  tag_value ← spec_getitem (value spec) "value";
  geometry_spec ← spec_getitem (geometry spec) "geometry";
  values ← getitem (osm_query_tags t) tag_key;
  let q :=
    if bool_decide (tag_value ∈ values)
    then osm_query_tags t
    else setitem (osm_query_tags t) tag_key (values ++ [tag_value]) in
  let osm_tag := fmt_tag tag_key tag_value in
  Ok (Tables q (<[osm_tag := geometry_spec]> (geometry_lookup t))).

(** Body of [for tag_key, tag_values in category_tags.items()]
    (lines 40-54). *)
Definition register_key (t : tables) (item : string * list tag_spec)
  : result tables :=
  let '(tag_key, tag_values) := item in
  let q :=
    if contains (osm_query_tags t) tag_key
    then osm_query_tags t
    else setitem (osm_query_tags t) tag_key [] in
  for_each (register_spec tag_key) tag_values (Tables q (geometry_lookup t)).

(** Body of [for category_config in tags] (lines 36-54). *)
Definition register_category (t : tables) (c : category_config)
  : result tables :=
  let category_tags := default [] (tags c) in
  for_each register_key category_tags t.

(** Lines 32-54: the query dictionary and the geometry lookup. *)
Definition build_tables (tags : list category_config) : result tables :=
  for_each register_category tags (Tables [] ∅).

(** ** Feature frames *)

Module Pandas.

(** A shapely geometry, as far as the function looks at it: its
    [geom_type] and the text [str] gives for it. *)
Record Geometry : Type := mkGeometry {
  geom_type : string;
  wkt : string;
}.

(** The content of one cell of the feature frame: OSMnx gives a string
    for a tag the feature has and [NaN] for one it does not have, and
    the shapely geometry in column [geometry]; [None] is what line 147
    writes. *)
Inductive cell : Type :=
| PyNone
| NaN
| Str (s : string)
| Geom (g : Geometry).

Global Instance Geometry_eq_dec : EqDecision Geometry.
Proof. solve_decision. Defined.
Global Instance cell_eq_dec : EqDecision cell.
Proof. solve_decision. Defined.

Definition cell_encode (c : cell) : () + () + string + string * string :=
  match c with
  | PyNone => inl (inl (inl ()))
  | NaN => inl (inl (inr ()))
  | Str s => inl (inr s)
  | Geom g => inr (geom_type g, wkt g)
  end.

Definition cell_decode (x : () + () + string + string * string) : cell :=
  match x with
  | inl (inl (inl _)) => PyNone
  | inl (inl (inr _)) => NaN
  | inl (inr s) => Str s
  | inr (t, w) => Geom (mkGeometry t w)
  end.

Global Instance cell_countable : Countable cell.
Proof.
  apply (inj_countable' cell_encode cell_decode).
  by intros [| | s | [t w]].
Defined.

(** [pd.notna] *)
Definition notna (c : cell) : bool :=
  match c with
  | PyNone | NaN => false
  | Str _ | Geom _ => true
  end.

(** [str(c)], as an f-string formats a cell. *)
Definition str (c : cell) : string :=
  match c with
  | PyNone => "None"
  | NaN => "nan"
  | Str s => s
  | Geom g => wkt g
  end.

(** One record of a frame: the cells that are not [NaN], by column. *)
Abbreviation record := (gmap string cell).

(** A row as [DataFrame.apply(..., axis=1)] passes it: the frame's
    columns as index, and the record. *)
Record Series : Type := mkSeries {
  index : list string;
  data : record;
}.

(** [row[key]] *)
Definition series_getitem (row : Series) (key : string) : result cell :=
  if bool_decide (key ∈ index row)
  then Ok (default NaN (data row !! key))
  else Raise (KeyError key).

(** [row.name], for a name that is no attribute of [Series] itself. *)
Definition series_getattr (row : Series) (name : string) : result cell :=
  if bool_decide (name ∈ index row)
  then Ok (default NaN (data row !! name))
  else Raise (AttributeError name).

(** [c.geom_type] *)
Definition cell_geom_type (c : cell) : result string :=
  match c with
  | Geom g => Ok (geom_type g)
  | _ => Raise (AttributeError "geom_type")
  end.

Record GeoDataFrame : Type := mkFrame {
  columns : list string;
  records : list record;
}.

(** [df.apply(f, axis=1)] for an [f] that reads and updates variables
    of the enclosing function: [f] is called on the rows in order, and
    an exception of [f] is the exception of [apply]. *)
Fixpoint apply_rows {S B} (f : S → Series → result (B * S))
    (cols : list string) (rs : list record) (s : S) : result (list B * S) :=
  match rs with
  | [] => Ok ([], s)
  | r :: rs' =>
      '(b, s') ← f s (mkSeries cols r);
      '(bs, s'') ← apply_rows f cols rs' s';
      Ok (b :: bs, s'')
  end.

Definition apply {S B} (f : S → Series → result (B * S))
    (df : GeoDataFrame) (s : S) : result (list B * S) :=
  apply_rows f (columns df) (records df) s.

(** [df[name] = values] *)
Definition set_column (df : GeoDataFrame) (name : string)
    (values : list cell) : GeoDataFrame :=
  mkFrame
    (if bool_decide (name ∈ columns df) then columns df
     else columns df ++ [name])
    (zip_with (λ r v, <[name := v]> r) (records df) values).

(** [df[name] = value], one value for every row *)
Definition fill_column (df : GeoDataFrame) (name : string) (value : cell)
  : GeoDataFrame :=
  set_column df name (replicate (length (records df)) value).

(** [df[mask]] for a boolean [mask] with one entry per row *)
Definition boolean_mask (df : GeoDataFrame) (mask : list bool)
  : GeoDataFrame :=
  mkFrame (columns df)
    (filter (λ p, p.2 = true) (zip (records df) mask)).*1.

(** [df[names]] for a list of column names *)
Definition select_columns (df : GeoDataFrame) (names : list string)
  : result GeoDataFrame :=
  match filter (λ n, n ∉ columns df) names with
  | [] =>
      Ok (mkFrame names
            (filter (λ kv, kv.1 ∈ names) <$> records df))
  | missing :: _ => Raise (KeyError missing)
  end.

End Pandas.

Import Pandas.

(** ** Classification (lines 80-88) *)

(** [get_osm_tag(row)]: the loop over [osm_query_tags.keys()]. *)
Fixpoint get_osm_tag_from (tag_keys : list string) (row : Series)
  : result string :=
  match tag_keys with
  | [] => Ok "unknown"
  | tag_key :: rest =>
      if bool_decide (tag_key ∈ index row) then
        tag_value ← series_getitem row tag_key;
        if notna tag_value
        then Ok (fmt_tag tag_key (str tag_value))
        else get_osm_tag_from rest row
      else get_osm_tag_from rest row
  end.

Definition get_osm_tag (osm_query_tags : dict (list string)) (row : Series)
  : result string :=
  get_osm_tag_from (keys osm_query_tags) row.

(** ** Geometry filter (lines 91-129) *)

(** The two sets the filter fills. *)
Record Diagnostics : Type := mkDiagnostics {
  unknown_tags : gset cell;
  excluded_by_geometry : gset string;
}.

Definition no_diagnostics : Diagnostics := mkDiagnostics ∅ ∅.

Global Instance exn_eq_dec : EqDecision exn.
Proof. solve_decision. Defined.
Global Instance result_eq_dec {A} `{EqDecision A} : EqDecision (result A).
Proof. solve_decision. Defined.
Global Instance GeoDataFrame_eq_dec : EqDecision GeoDataFrame.
Proof. solve_decision. Defined.
Global Instance Diagnostics_eq_dec : EqDecision Diagnostics.
Proof. solve_decision. Defined.
Global Instance tables_eq_dec : EqDecision tables.
Proof. solve_decision. Defined.

(** A closed decidable statement, settled by running its decision. *)
Ltac by_evaluation := apply (bool_decide_unpack _); vm_compute; exact I.

Definition geometry_type_mapping : dict (list string) :=
  [ ("point", ["Point"]);
    ("area", ["Polygon"; "MultiPolygon"]);
    ("line", ["LineString"; "MultiLineString"]) ].

(** [f"{osm_tag} (geometry: {geom_type})"] *)
Definition fmt_mismatch (osm_tag : cell) (geom_type : string) : string :=
  str osm_tag +:+ " (geometry: " +:+ geom_type +:+ ")".

(** [geometry_lookup.get(osm_tag)]: only a string can be one of the
    lookup's keys. *)
Definition lookup_cell (geometry_lookup : gmap string geometry_spec)
    (osm_tag : cell) : option geometry_spec :=
  match osm_tag with
  | Str s => geometry_lookup !! s
  | _ => None
  end.

(** [isinstance(allowed_geometries, str)]: a string becomes the list of
    that one string. *)
Definition normalize (allowed_geometries : geometry_spec) : list string :=
  match allowed_geometries with
  | GStr s => [s]
  | GList l => l
  end.

(** The [for allowed_type in allowed_geometries] loop, which returns at
    the first match. *)
Definition matches_any (geom_type : string) (allowed : list string) : bool :=
  existsb
    (λ allowed_type,
       bool_decide
         (geom_type ∈ default [] (get geometry_type_mapping allowed_type)))
    allowed.

(** [should_keep_feature(row)]; [d] holds [unknown_tags] and
    [excluded_by_geometry] before the call, the result holds them after
    it.  The test of line 100 and the read of line 105 are one [match]. *)
Definition should_keep_feature (geometry_lookup : gmap string geometry_spec)
    (d : Diagnostics) (row : Series) : result (bool * Diagnostics) :=
  geometry ← series_getattr row "geometry";
  geom_type ← cell_geom_type geometry;
  osm_tag ← series_getitem row "osm_tag";
  match
    (if bool_decide (osm_tag = Str "unknown") then None
     else lookup_cell geometry_lookup osm_tag)
  with
  | None =>
      Ok (false,
          mkDiagnostics ({[osm_tag]} ∪ unknown_tags d) (excluded_by_geometry d))
  | Some allowed_geometries =>
      if bool_decide (allowed_geometries = GStr "any") then Ok (true, d)
      else if matches_any geom_type (normalize allowed_geometries)
      then Ok (true, d)
      else
        Ok (false,
            mkDiagnostics (unknown_tags d)
              ({[fmt_mismatch osm_tag geom_type]} ∪ excluded_by_geometry d))
  end.

(** ** The function, from the downloaded frame on (lines 88-162) *)

(** Line 88: the [osm_tag] column. *)
Definition add_osm_tag (t : tables) (features_gdf : GeoDataFrame)
  : result GeoDataFrame :=
  '(osm_tags, _) ←
    apply (λ (u : ()) row, tag ← get_osm_tag (osm_query_tags t) row;
                           Ok (Str tag, u))
          features_gdf ();
  Ok (set_column features_gdf "osm_tag" osm_tags).

(** Lines 91-131: the rows the filter keeps, and the two sets. *)
Definition filter_features (t : tables) (features_gdf : GeoDataFrame)
  : result (GeoDataFrame * Diagnostics) :=
  '(mask, d) ←
    apply (should_keep_feature (geometry_lookup t)) features_gdf
          no_diagnostics;
  Ok (boolean_mask features_gdf mask, d).

(** Lines 141-154: the output columns. *)
Definition select_output (features_gdf : GeoDataFrame) : result GeoDataFrame :=
  let features_gdf :=
    if bool_decide ("name" ∈ columns features_gdf) then features_gdf
    else fill_column features_gdf "name" PyNone in
  let result_columns := ["name"] ++ ["osm_tag"; "geometry"] in
  select_columns features_gdf result_columns.

(** Lines 88-131 on a compiled taxonomy: classify, then filter. *)
Definition classify_and_filter (t : tables) (features_gdf : GeoDataFrame)
  : result (GeoDataFrame * Diagnostics) :=
  features_gdf ← add_osm_tag t features_gdf;
  filter_features t features_gdf.

(** [extract_selected_tags_from_osm_complete], with the frame that
    [ox.features_from_polygon] returned as [features_gdf]; the result is
    [result_gdf] together with the two sets that the function logs. *)
Definition extract_selected_tags_from_osm_complete
    (tags : list category_config) (features_gdf : GeoDataFrame)
  : result (GeoDataFrame * Diagnostics) :=
  t ← build_tables tags;
  '(features_gdf, d) ← classify_and_filter t features_gdf;
  result_gdf ← select_output features_gdf;
  Ok (result_gdf, d).

(** ** A small configuration and frame, used to run the definitions *)

Module Sample.

Definition polygon : cell :=
  Geom (mkGeometry "Polygon" "POLYGON ((0 0, 1 0, 1 1, 0 0))").
Definition point : cell := Geom (mkGeometry "Point" "POINT (0 0)").
Definition linestring : cell :=
  Geom (mkGeometry "LineString" "LINESTRING (0 0, 1 1)").

(** Parks, as areas. *)
Definition park_area : list category_config :=
  [ CategoryConfig (Some "Green")
      (Some [("leisure", [TagSpec (Some "park") (Some (GStr "area"))])]) ].

(** A park, a park surveyed as a point, a garden, and a way without a
    [leisure] tag. *)
Definition frame : GeoDataFrame :=
  mkFrame ["geometry"; "leisure"]
    [ {[ "geometry" := polygon; "leisure" := Str "park" ]};
      {[ "geometry" := point; "leisure" := Str "park" ]};
      {[ "geometry" := polygon; "leisure" := Str "garden" ]};
      {[ "geometry" := linestring ]} ].

(** Two categories declare [park=yes], with different geometries. *)
Definition park_twice : list category_config :=
  [ CategoryConfig (Some "Parks")
      (Some [("park", [TagSpec (Some "yes") (Some (GStr "area"))])]);
    CategoryConfig (Some "Meeting points")
      (Some [("park", [TagSpec (Some "yes") (Some (GList ["point"; "area"]))])]) ].

(** A cycleway with a bench on it; [highway] is declared before
    [amenity]. *)
Definition cycleway_first : list category_config :=
  [ CategoryConfig (Some "Mobility")
      (Some [("highway", [TagSpec (Some "cycleway") (Some (GList ["line"]))])]);
    CategoryConfig (Some "Furniture")
      (Some [("amenity", [TagSpec (Some "bench") (Some (GStr "point"))])]) ].

Definition bench_on_cycleway : Series :=
  mkSeries ["geometry"; "amenity"; "highway"]
    {[ "geometry" := linestring; "amenity" := Str "bench";
       "highway" := Str "cycleway" ]}.

(** A park surveyed as a point, already tagged. *)
Definition park_as_point : Series :=
  mkSeries ["geometry"; "leisure"; "osm_tag"]
    {[ "geometry" := point; "leisure" := Str "park";
       "osm_tag" := Str "leisure=park" ]}.

(** The tables of [park_area]. *)
Definition park_tables : tables :=
  Tables [("leisure", ["park"])] {[ "leisure=park" := GStr "area" ]}.

(** A key and a value that hold the separator themselves. *)
Definition old_refs : list category_config :=
  [ CategoryConfig (Some "References")
      (Some [("ref=old", [TagSpec (Some "x=y") (Some (GStr "any"))])]) ].

Definition old_refs_frame : GeoDataFrame :=
  mkFrame ["geometry"; "ref=old"]
    [ {[ "geometry" := point; "ref=old" := Str "x=y" ]} ].

(** A geometry list that names no shape class. *)
Definition park_polygon : list category_config :=
  [ CategoryConfig (Some "Green")
      (Some [("leisure", [TagSpec (Some "park") (Some (GList ["polygon"]))])]) ].

Definition park_polygon_tables : tables :=
  Tables [("leisure", ["park"])] {[ "leisure=park" := GList ["polygon"] ]}.

(** A specification without its [geometry] key. *)
Definition park_without_geometry : list category_config :=
  [ CategoryConfig (Some "Green")
      (Some [("leisure", [TagSpec (Some "park") None])]) ].

(** [osm_tag] itself as a tag key, declared first, and its tables. *)
Definition osm_tag_first : list category_config :=
  [ CategoryConfig (Some "Tagged")
      (Some [("osm_tag", [TagSpec (Some "yes") (Some (GStr "any"))])]);
    CategoryConfig (Some "Green")
      (Some [("leisure", [TagSpec (Some "park") (Some (GStr "area"))])]) ].

Definition osm_tag_as_key : tables :=
  Tables [("osm_tag", ["yes"]); ("leisure", ["park"])]
    {[ "osm_tag=yes" := GStr "any"; "leisure=park" := GStr "area" ]}.

(** Two categories without a name, which the report files under the
    same name. *)
Definition unnamed_twice : list category_config :=
  [ CategoryConfig None
      (Some [("leisure", [TagSpec (Some "park") (Some (GStr "area"))])]);
    CategoryConfig None
      (Some [("highway", [TagSpec (Some "cycleway") (Some (GStr "line"))])]) ].

(** The pair [a], [b=c] declared twice, then the pair [a=b], [c]: all
    three form the tag [a=b=c]. *)
Definition colliding_pairs : list category_config :=
  [ CategoryConfig (Some "First")
      (Some [("a", [TagSpec (Some "b=c") (Some (GStr "area"))])]);
    CategoryConfig (Some "Second")
      (Some [("a", [TagSpec (Some "b=c") (Some (GStr "point"))])]);
    CategoryConfig (Some "Third")
      (Some [("a=b", [TagSpec (Some "c") (Some (GStr "line"))])]) ].

(** The tables of [cycleway_first], and a bench on a residential road:
    its first query key forms a tag that is not configured, its second
    one a tag that is. *)
Definition cycleway_tables : tables :=
  Tables [("highway", ["cycleway"]); ("amenity", ["bench"])]
    {[ "highway=cycleway" := GList ["line"];
       "amenity=bench" := GStr "point" ]}.

Definition bench_on_road : gmap string cell :=
  {[ "geometry" := point; "amenity" := Str "bench";
     "highway" := Str "residential" ]}.

Definition road_frame : GeoDataFrame :=
  mkFrame ["geometry"; "amenity"; "highway"] [ bench_on_road ].

(** The sample frame with its rows in the opposite order. *)
Definition frame_reversed : GeoDataFrame :=
  mkFrame (columns frame) (reverse (records frame)).

End Sample.

(** ** Reading the configuration in declaration order *)

(** All [(tag_key, tag_values)] items, category after category. *)
Definition items (cfg : list category_config) : list (string * list tag_spec) :=
  c ← cfg; default [] (tags c).

(** All tag specifications with their key, in the order the three
    nested loops visit them. *)
Definition declarations (cfg : list category_config)
  : list (string * tag_spec) :=
  item ← items cfg; pair item.1 <$> item.2.

(** A specification with both of its keys. *)
Definition complete (spec : tag_spec) : Prop :=
  is_Some (value spec) ∧ is_Some (geometry spec).

Global Instance complete_dec spec : Decision (complete spec).
Proof. unfold complete. apply _. Defined.

(** The lookup entry a declaration writes, when it is complete. *)
Definition entry (decl : string * tag_spec)
  : option (string * geometry_spec) :=
  v ← value decl.2; g ← geometry decl.2; Some (fmt_tag decl.1 v, g).

Definition entries (cfg : list category_config)
  : list (string * geometry_spec) :=
  omap entry (declarations cfg).

(** Writing entries one after the other, as [geometry_lookup[osm_tag] =
    geometry_spec] does. *)
Definition write_all (m : gmap string geometry_spec)
    (es : list (string * geometry_spec)) : gmap string geometry_spec :=
  foldl (λ m e, <[e.1 := e.2]> m) m es.

(** Tag keys in the order of their first declaration. *)
Definition first_seen (seen : list string) (ks : list string) : list string :=
  foldl (λ acc k, if bool_decide (k ∈ acc) then acc else acc ++ [k]) seen ks.

Definition key_order (cfg : list category_config) : list string :=
  first_seen [] (items cfg).*1.

(** [declarations], from the items on. *)
Definition item_declarations (its : list (string * list tag_spec))
  : list (string * tag_spec) :=
  item ← its; pair item.1 <$> item.2.

(** The exception of a specification without one of its two keys. *)
Abbreviation missing_key e :=
  (e = KeyError "value" ∨ e = KeyError "geometry").

(** ** The geometry validator in the specification's words *)

Module GeometryValidator.

Inductive atomic_kind : Type := point | area | line.

Definition kind_name (k : atomic_kind) : string :=
  match k with
  | point => "point"
  | area => "area"
  | line => "line"
  end.

(** The fixed mapping from shapes to atomic kinds; any other shape has
    no kind. *)
Definition shape_kind (shape : string) : option atomic_kind :=
  if decide (shape = "Point") then Some point
  else if decide (shape = "Polygon" ∨ shape = "MultiPolygon") then Some area
  else if decide (shape = "LineString" ∨ shape = "MultiLineString")
  then Some line
  else None.

Inductive reason : Type := unrecognizedTag | geometryMismatch.

Inductive decision : Type :=
| Keep
| Reject (why : reason).

(** The allowed set of a constraint that is not the wildcard: an atomic
    kind alone, or the members of a list. *)
Definition allowed_set (c : geometry_spec) : list string :=
  match c with
  | GStr kind => [kind]
  | GList kinds => kinds
  end.

(** Steps 1 to 4 of the validator. *)
Definition accept (canonicalTag : cell) (shape : string)
    (geometryLookup : gmap string geometry_spec) : decision :=
  if decide (canonicalTag = Str "unknown") then Reject unrecognizedTag
  else
    match lookup_cell geometryLookup canonicalTag with
    | None => Reject unrecognizedTag
    | Some allowed =>
        if decide (allowed = GStr "any") then Keep
        else
          match shape_kind shape with
          | None => Reject geometryMismatch
          | Some kind =>
              if decide (kind_name kind ∈ allowed_set allowed) then Keep
              else Reject geometryMismatch
          end
    end.

(** How a decision shows in the function: the mask entry, and the
    diagnostic added to one of the two sets. *)
Definition outcome (dec : decision) (d : Diagnostics) (canonicalTag : cell)
    (shape : string) : bool * Diagnostics :=
  match dec with
  | Keep => (true, d)
  | Reject unrecognizedTag =>
      (false,
       mkDiagnostics ({[canonicalTag]} ∪ unknown_tags d)
         (excluded_by_geometry d))
  | Reject geometryMismatch =>
      (false,
       mkDiagnostics (unknown_tags d)
         ({[fmt_mismatch canonicalTag shape]} ∪ excluded_by_geometry d))
  end.

End GeometryValidator.

(** ** Reading a feature *)

(** The cell of a row under a column of its index. *)
Definition cell_at (row : Series) (key : string) : cell :=
  default NaN (data row !! key).

(** The key is present on the feature with a non-null value. *)
Definition has_value (row : Series) (key : string) : Prop :=
  key ∈ index row ∧ notna (cell_at row key) = true.

(** No member of the allowed list names a shape class with the shape. *)
Definition no_match (geom_type : string) (allowed : list string) : Prop :=
  ∀ allowed_type, allowed_type ∈ allowed →
    geom_type ∉ default [] (get geometry_type_mapping allowed_type).

(** ** Frames of features *)

(** A frame as GeoPandas has it: with a [geometry] column that holds a
    geometry in every row. *)
Definition geo_frame (df : GeoDataFrame) : Prop :=
  "geometry" ∈ columns df
  ∧ Forall (λ r : record, ∃ g, r !! "geometry" = Some (Geom g)) (records df).

(** The tag [get_osm_tag] gives to a record of a frame. *)
Definition tag_of (t : tables) (cols : list string) (r : record) : string :=
  match get_osm_tag (osm_query_tags t) (mkSeries cols r) with
  | Ok tag => tag
  | Raise _ => "unknown"
  end.

(** A record with its tag in the [osm_tag] column. *)
Definition tagged (t : tables) (cols : list string) (r : record) : record :=
  <["osm_tag" := Str (tag_of t cols r)]> r.

(** The frame with its [osm_tag] column. *)
Definition classified (t : tables) (df : GeoDataFrame) : GeoDataFrame :=
  mkFrame
    (if bool_decide ("osm_tag" ∈ columns df) then columns df
     else columns df ++ ["osm_tag"])
    (tagged t (columns df) <$> records df).

Definition tag_cell (r : record) : cell := default NaN (r !! "osm_tag").

Definition shape_of (r : record) : string :=
  match r !! "geometry" with
  | Some (Geom g) => geom_type g
  | _ => ""
  end.

(** The validator's decision on a tagged record. *)
Definition decision_of (t : tables) (r : record) : GeometryValidator.decision :=
  GeometryValidator.accept (tag_cell r) (shape_of r) (geometry_lookup t).

Definition keeps (dec : GeometryValidator.decision) : bool :=
  match dec with
  | GeometryValidator.Keep => true
  | GeometryValidator.Reject _ => false
  end.

(** The diagnostics after one more record. *)
Definition record_diagnostics (t : tables) (d : Diagnostics) (r : record)
  : Diagnostics :=
  (GeometryValidator.outcome (decision_of t r) d (tag_cell r) (shape_of r)).2.

(** The rows the validator keeps, in the order of the frame. *)
Definition filtered (t : tables) (df : GeoDataFrame) : GeoDataFrame :=
  mkFrame (columns df)
    (filter (λ r, keeps (decision_of t r) = true) (records df)).

(** The diagnostics of a whole frame. *)
Definition diagnostics_of (t : tables) (rs : list record) : Diagnostics :=
  foldl (record_diagnostics t) no_diagnostics rs.

(** The output record of a kept record: the three output columns, with
    [None] as name when the frame has no [name] column. *)
Definition output_record (has_name : bool) (r : record) : record :=
  filter (λ kv, kv.1 ∈ ["name"; "osm_tag"; "geometry"])
    (if has_name then r else <["name" := PyNone]> r).

(** ** Strings *)

(** [c in s] for a character [c] *)
Fixpoint has_char (c : ascii) (s : string) : bool :=
  match s with
  | EmptyString => false
  | String c' s' => Ascii.eqb c' c || has_char c s'
  end.

(** [s.split(sep)] for a separator of one character *)
Fixpoint str_split (sep : ascii) (s : string) : list string :=
  match s with
  | EmptyString => [""]
  | String c s' =>
      if Ascii.eqb c sep then "" :: str_split sep s'
      else
        match str_split sep s' with
        | [] => [String c ""]
        | part :: parts => String c part :: parts
        end
  end.

(** ** The report ([reporting/nodes.py], [generate_html_report]) *)

(** [gdf[name]]: one column of a frame. *)
Definition frame_getitem (df : GeoDataFrame) (name : string)
  : result (list cell) :=
  if bool_decide (name ∈ columns df)
  then Ok ((λ r : record, default NaN (r !! name)) <$> records df)
  else Raise (KeyError name).

(** [column.value_counts().to_dict()]: every non-null value with the
    number of its occurrences.  The report reads [tag_counts] with
    [.get] only, so the order of the dictionary is not kept. *)
Definition value_counts (column : list cell) : gmap cell nat :=
  foldr
    (λ c counts,
       if notna c then <[c := S (default 0 (counts !! c))]> counts
       else counts)
    ∅ column.

(** [tag_counts.get(tag, 0)] *)
Definition count_of (tag_counts : gmap cell nat) (tag : string) : nat :=
  default 0 (tag_counts !! Str tag).

(** Lines 54-58: body of [for tag_spec in tag_values]. *)
Definition collect_tag (tag_key : string) (tag_list : list string)
    (spec : tag_spec) : result (list string) :=
  tag_value ← spec_getitem (value spec) "value";
  let osm_tag := fmt_tag tag_key tag_value in
  Ok (if bool_decide (osm_tag ∈ tag_list) then tag_list
      else tag_list ++ [osm_tag]).

(** Lines 53-58: body of [for tag_key, tag_values in
    category_tags.items()]. *)
Definition collect_key (tag_list : list string)
    (item : string * list tag_spec) : result (list string) :=
  for_each (collect_tag item.1) item.2 tag_list.

(** Lines 49-60: body of [for category_config in osm_tags]. *)
Definition map_category (category_mapping : dict (list string))
    (c : category_config) : result (dict (list string)) :=
  let category_name := default "Unknown" (category c) in
  let category_tags := default [] (tags c) in
  tag_list ← for_each collect_key category_tags [];
  Ok (setitem category_mapping category_name tag_list).

(** Lines 47-60: [category_mapping]. *)
Definition build_category_mapping (osm_tags : list category_config)
  : result (dict (list string)) :=
  for_each map_category osm_tags [].

(** The line feed and the double quote of the row templates. *)
Definition nl : string := String (ascii_of_nat 10) EmptyString.
Definition dq : string := String (ascii_of_nat 34) EmptyString.

(** Digits in groups of three, on the reversed digits of a number. *)
Fixpoint group_digits (reversed : list ascii) : list ascii :=
  match reversed with
  | a :: b :: c :: (_ :: _) as more =>
      a :: b :: c :: ","%char :: group_digits more
  | _ => reversed
  end.

(** [f"{n:,}"] for a count. *)
Definition fmt_grouped (n : nat) : string :=
  string_of_list_ascii
    (reverse (group_digits (reverse (list_ascii_of_string (pretty n))))).

(** [sum(1 for t in tags if tag_counts.get(t, 0) > 0)] *)
Definition rowspan (tag_counts : gmap cell nat) (tags : list string) : nat :=
  sum_list_with (λ _, 1) (filter (λ t, 0 < count_of tag_counts t) tags).

(** Lines 351-356: the row that opens a category. *)
Definition first_row (category tag : string) (span count : nat) : string :=
  "            <tr>" +:+ nl +:+
  "                <td rowspan=" +:+ dq +:+ pretty span +:+ dq +:+
    "><strong>" +:+ category +:+ "</strong></td>" +:+ nl +:+
  "                <td>" +:+ tag +:+ "</td>" +:+ nl +:+
  "                <td>" +:+ fmt_grouped count +:+ "</td>" +:+ nl +:+
  "            </tr>" +:+ nl.

(** Lines 359-363: a further row of the category. *)
Definition next_row (tag : string) (count : nat) : string :=
  "            <tr>" +:+ nl +:+
  "                <td>" +:+ tag +:+ "</td>" +:+ nl +:+
  "                <td>" +:+ fmt_grouped count +:+ "</td>" +:+ nl +:+
  "            </tr>" +:+ nl.

(** Lines 348-364: body of [for tag in tags]; the state is [html] and
    [first_tag]. *)
Definition add_tag_row (tag_counts : gmap cell nat) (category : string)
    (tags : list string) (state : string * bool) (tag : string)
  : string * bool :=
  let '(html, first_tag) := state in
  let count := count_of tag_counts tag in
  if decide (0 < count) then
    if first_tag
    then (html +:+ first_row category tag (rowspan tag_counts tags) count,
          false)
    else (html +:+ next_row tag count, first_tag)
  else (html, first_tag).

(** Lines 346-364: body of [for category, tags in
    category_mapping.items()]. *)
Definition add_category_rows (tag_counts : gmap cell nat) (html : string)
    (item : string * list string) : string :=
  (foldl (add_tag_row tag_counts item.1 item.2) (html, true) item.2).1.

(** Lines 345-364: the rows of the tag table, appended to [html]. *)
Definition add_tag_table (tag_counts : gmap cell nat)
    (category_mapping : dict (list string)) (html : string) : string :=
  foldl (add_category_rows tag_counts) html category_mapping.

(** *** The tag table, row by row *)

(** A row of the tag table: the category cell with its [rowspan] on the
    row that opens a category, the tag and its count. *)
Record table_row : Type := TableRow {
  row_category : option (string * nat);
  row_tag : string;
  row_count : nat;
}.

Definition render_row (row : table_row) : string :=
  match row_category row with
  | Some (category, span) =>
      first_row category (row_tag row) span (row_count row)
  | None => next_row (row_tag row) (row_count row)
  end.

(** The rows of one category: one for each of its tags that some feature
    has, the first with the category and the number of these rows. *)
Definition category_rows (tag_counts : gmap cell nat) (category : string)
    (tags : list string) : list table_row :=
  match filter (λ t, 0 < count_of tag_counts t) tags with
  | [] => []
  | tag :: more =>
      TableRow (Some (category, S (length more))) tag (count_of tag_counts tag)
      :: ((λ t, TableRow None t (count_of tag_counts t)) <$> more)
  end.

Definition table_rows (tag_counts : gmap cell nat)
    (category_mapping : dict (list string)) : list table_row :=
  item ← category_mapping; category_rows tag_counts item.1 item.2.

(** Strings one after the other. *)
Definition concat_strings (parts : list string) : string :=
  foldr String.append EmptyString parts.

(** The name under which the report files a category. *)
Definition category_name (c : category_config) : string :=
  default "Unknown" (category c).

(** The tag a declaration with a value stands for. *)
Definition declared_tag (decl : string * tag_spec) : option string :=
  v ← value decl.2; Some (fmt_tag decl.1 v).

(** The tags of a category, each once, in the order of declaration. *)
Definition category_tag_list (c : category_config) : list string :=
  first_seen [] (omap declared_tag (item_declarations (default [] (tags c)))).

(** All tags of the mapping, category after category. *)
Definition listed_tags (category_mapping : dict (list string)) : list string :=
  item ← category_mapping; item.2.

(** ** Invariants of the query dictionary *)

(** The value lists of a query dictionary hold no value twice. *)
Definition values_NoDup (q : dict (list string)) : Prop :=
  ∀ k vs, get q k = Some vs → NoDup vs.

(** Every value list of the first dictionary begins the list under the
    same key of the second. *)
Definition values_extend (q q' : dict (list string)) : Prop :=
  ∀ k vs, get q k = Some vs → ∃ vs', get q' k = Some vs' ∧ vs `prefix_of` vs'.

(** ** Lemmas on loops and dictionaries *)

Section loops.
Context {S A : Type}.
Implicit Types (body : S → A → result S) (s : S).

Lemma for_each_app body xs ys s :
  for_each body (xs ++ ys) s = for_each body xs s ≫= for_each body ys.
Proof.
  revert s. induction xs as [|x xs IH]; intros s; [done|].
  simpl. destruct (body s x) as [s'|e]; simpl; [apply IH | done].
Qed.

End loops.

Lemma for_each_nested {S A B} (inner : S → B → result S) (f : A → list B)
    (xs : list A) (s : S) :
  for_each (λ s x, for_each inner (f x) s) xs s
  = for_each inner (x ← xs; f x) s.
Proof.
  revert s. induction xs as [|x xs IH]; intros s; [done|].
  rewrite bind_cons, for_each_app. simpl.
  destruct (for_each inner (f x) s) as [s'|e]; simpl; [apply IH | done].
Qed.

Section dict.
Context {V : Type}.
Implicit Types (d : dict V) (k : string).

Lemma get_None d k : get d k = None ↔ k ∉ keys d.
Proof.
  induction d as [|[k' v] d IH].
  - split; [intros _; apply not_elem_of_nil | done].
  - change (keys ((k', v) :: d)) with (k' :: keys d).
    rewrite not_elem_of_cons. simpl.
    destruct (decide (k' = k)) as [->|Hne].
    + split; [done | by intros [? _]].
    + rewrite IH. split; [by intros; split; [congruence|] | by intros [_ ?]].
Qed.

Lemma get_is_Some d k : is_Some (get d k) ↔ k ∈ keys d.
Proof.
  rewrite <- not_eq_None_Some, get_None.
  split; [apply dec_stable | by intros ? ?].
Qed.

Lemma keys_setitem d k v :
  keys (setitem d k v) = if bool_decide (k ∈ keys d) then keys d
                         else keys d ++ [k].
Proof.
  induction d as [|[k' v'] d IH]; [done|].
  change (keys ((k', v') :: d)) with (k' :: keys d). simpl.
  destruct (decide (k' = k)) as [->|Hne].
  - rewrite bool_decide_eq_true_2; [done | left].
  - change (keys ((k', v') :: setitem d k v)) with (k' :: keys (setitem d k v)).
    rewrite IH. destruct (bool_decide_reflect (k ∈ keys d)) as [Hin|Hnin].
    + by rewrite bool_decide_eq_true_2 by (by right).
    + rewrite bool_decide_eq_false_2; [done|].
      rewrite not_elem_of_cons. naive_solver.
Qed.

Lemma get_setitem d k k' v :
  get (setitem d k v) k' = if decide (k = k') then Some v else get d k'.
Proof.
  induction d as [|[k0 v0] d IH]; simpl.
  - by destruct (decide (k = k')).
  - destruct (decide (k0 = k)) as [->|Hne]; simpl.
    + by destruct (decide (k = k')).
    + rewrite IH. destruct (decide (k0 = k')) as [->|?]; [|done].
      by rewrite decide_False.
Qed.
End dict.

(** ** What the table-building loops compute *)

Lemma register_spec_spec tag_key t spec :
  tag_key ∈ keys (osm_query_tags t) →
  match register_spec tag_key t spec with
  | Ok t' =>
      ∃ v g, value spec = Some v ∧ geometry spec = Some g
        ∧ keys (osm_query_tags t') = keys (osm_query_tags t)
        ∧ geometry_lookup t' = <[fmt_tag tag_key v := g]> (geometry_lookup t)
        ∧ (∀ k, k ≠ tag_key →
             get (osm_query_tags t') k = get (osm_query_tags t) k)
        ∧ (∀ w, w ∈ default [] (get (osm_query_tags t') tag_key)
                ↔ w ∈ default [] (get (osm_query_tags t) tag_key) ∨ w = v)
  | Raise e => ¬ complete spec ∧ missing_key e
  end.
Proof.
  intros Hkey. unfold register_spec, complete.
  destruct (value spec) as [v|]; simpl;
    [|split; [by intros [[? [=]] _] | by left]].
  destruct (geometry spec) as [g|]; simpl;
    [|split; [by intros [_ [? [=]]] | by right]].
  apply get_is_Some in Hkey as [vs Hvs]. unfold getitem. rewrite Hvs. simpl.
  exists v, g. split_and!; try done.
  - case_bool_decide as Hv; [done|].
    rewrite keys_setitem, bool_decide_eq_true_2; [done|].
    apply get_is_Some; eauto.
  - intros k Hk. case_bool_decide; [done|].
    by rewrite get_setitem, decide_False.
  - intros w. case_bool_decide as Hv; simpl.
    + rewrite Hvs. simpl. split; [by left | by intros [?| ->]].
    + rewrite get_setitem, decide_True by done. simpl.
      rewrite elem_of_app, list_elem_of_singleton. done.
Qed.

Lemma register_specs_spec tag_key specs t :
  tag_key ∈ keys (osm_query_tags t) →
  match for_each (register_spec tag_key) specs t with
  | Ok t' =>
      Forall complete specs
      ∧ keys (osm_query_tags t') = keys (osm_query_tags t)
      ∧ geometry_lookup t'
        = write_all (geometry_lookup t) (omap entry (pair tag_key <$> specs))
      ∧ (∀ k, k ≠ tag_key →
           get (osm_query_tags t') k = get (osm_query_tags t) k)
      ∧ (∀ w, w ∈ default [] (get (osm_query_tags t') tag_key)
              ↔ w ∈ default [] (get (osm_query_tags t) tag_key)
                ∨ Some w ∈ value <$> specs)
  | Raise e => Exists (λ s, ¬ complete s) specs ∧ missing_key e
  end.
Proof.
  revert t. induction specs as [|spec specs IH]; intros t Hkey; simpl.
  { split_and!; try done. intros w. rewrite elem_of_nil. tauto. }
  pose proof (register_spec_spec tag_key t spec Hkey) as H1.
  destruct (register_spec tag_key t spec) as [t1|e]; simpl;
    [|destruct H1; split; [by left | done]].
  destruct H1 as (v & g & Hv & Hg & Hkeys & Hlook & Hother & Hvals).
  assert (tag_key ∈ keys (osm_query_tags t1)) as Hkey1 by by rewrite Hkeys.
  specialize (IH t1 Hkey1).
  destruct (for_each (register_spec tag_key) specs t1) as [t2|e];
    [|destruct IH; split; [by right | done]].
  destruct IH as (Hall & Hkeys2 & Hlook2 & Hother2 & Hvals2).
  split_and!.
  - constructor; [|done]. unfold complete. rewrite Hv, Hg. eauto.
  - congruence.
  - rewrite Hlook2, Hlook. unfold entry at 2. simpl. rewrite Hv, Hg. done.
  - intros k Hk. rewrite Hother2, Hother; done.
  - intros w. rewrite Hvals2, Hvals, elem_of_cons, Hv.
    split; [intros [[?| ->]|?] | intros [?|[[= ->]|?]]]; eauto.
Qed.

Lemma write_all_app m es1 es2 :
  write_all m (es1 ++ es2) = write_all (write_all m es1) es2.
Proof. apply foldl_app. Qed.

Lemma register_keys_spec its t :
  match for_each register_key its t with
  | Ok t' =>
      Forall (λ d, complete d.2) (item_declarations its)
      ∧ keys (osm_query_tags t') = first_seen (keys (osm_query_tags t)) its.*1
      ∧ geometry_lookup t'
        = write_all (geometry_lookup t) (omap entry (item_declarations its))
      ∧ (∀ k w, w ∈ default [] (get (osm_query_tags t') k)
                ↔ w ∈ default [] (get (osm_query_tags t) k)
                  ∨ ∃ s, (k, s) ∈ item_declarations its ∧ value s = Some w)
  | Raise e =>
      Exists (λ d, ¬ complete d.2) (item_declarations its) ∧ missing_key e
  end.
Proof.
  revert t. induction its as [|[tag_key specs] its IH]; intros t.
  { simpl. split_and!; try done. intros k w.
    split; [by left | intros [?|(s & Hs & _)]; [done|]].
    by apply elem_of_nil in Hs. }
  unfold item_declarations in *. rewrite bind_cons. simpl.
  set (q0 := if contains (osm_query_tags t) tag_key then osm_query_tags t
             else setitem (osm_query_tags t) tag_key []).
  assert (keys q0 = first_seen (keys (osm_query_tags t)) [tag_key]) as Hq0.
  { unfold q0, contains. simpl. case_bool_decide as Hin; [done|].
    by rewrite keys_setitem, bool_decide_eq_false_2. }
  assert (∀ k, default [] (get q0 k) = default [] (get (osm_query_tags t) k))
    as Hget0.
  { intros k. unfold q0, contains. case_bool_decide as Hin; [done|].
    rewrite get_setitem. destruct (decide (tag_key = k)) as [<-|]; [|done].
    apply get_None in Hin. by rewrite Hin. }
  assert (tag_key ∈ keys q0) as Hin0.
  { rewrite Hq0. simpl. case_bool_decide; [done|].
    apply elem_of_app. right. apply list_elem_of_singleton. done. }
  pose proof (register_specs_spec tag_key specs
                (Tables q0 (geometry_lookup t)) Hin0) as H1.
  destruct (for_each (register_spec tag_key) specs
              (Tables q0 (geometry_lookup t))) as [t1|e]; simpl in *.
  2:{ destruct H1 as [Hex He]. split; [|done].
      apply Exists_app. left. by apply Exists_fmap. }
  destruct H1 as (Hall1 & Hkeys1 & Hlook1 & Hother1 & Hvals1).
  specialize (IH t1).
  destruct (for_each register_key its t1) as [t2|e].
  2:{ destruct IH as [Hex He]. split; [|done]. apply Exists_app. by right. }
  destruct IH as (Hall2 & Hkeys2 & Hlook2 & Hvals2).
  split_and!.
  - apply Forall_app. split; [by apply Forall_fmap | done].
  - rewrite Hkeys2, Hkeys1, Hq0. done.
  - rewrite omap_app, write_all_app, <- Hlook1. done.
  - intros k w. rewrite Hvals2.
    assert (w ∈ default [] (get (osm_query_tags t1) k)
            ↔ w ∈ default [] (get (osm_query_tags t) k)
              ∨ ∃ s, (k, s) ∈ pair tag_key <$> specs ∧ value s = Some w)
      as ->.
    { destruct (decide (k = tag_key)) as [->|Hne].
      - rewrite Hvals1, Hget0, list_elem_of_fmap.
        apply or_iff_compat_l. split.
        + intros (s & Hs & Hin). exists s. split; [|done].
          apply list_elem_of_fmap. eauto.
        + intros (s & Hin & Hs). exists s. split; [done|].
          apply list_elem_of_fmap in Hin as (s' & [= <-] & ?). done.
      - rewrite Hother1 by done. simpl. rewrite Hget0.
        split; [by left | intros [?|(s & Hin & _)]; [done|]].
        apply list_elem_of_fmap in Hin as (s' & [= ? ?] & ?). done. }
    setoid_rewrite elem_of_app.
    split; [intros [[?|(s & ? & ?)]|(s & ? & ?)] | intros [?|(s & [?|?] & ?)]];
      eauto 8.
Qed.

(** The table-building loops, read off the configuration. *)
Lemma build_tables_spec cfg :
  match build_tables cfg with
  | Ok t =>
      Forall (λ d, complete d.2) (declarations cfg)
      ∧ keys (osm_query_tags t) = key_order cfg
      ∧ geometry_lookup t = write_all ∅ (entries cfg)
      ∧ (∀ k w, w ∈ default [] (get (osm_query_tags t) k)
                ↔ ∃ s, (k, s) ∈ declarations cfg ∧ value s = Some w)
  | Raise e => Exists (λ d, ¬ complete d.2) (declarations cfg) ∧ missing_key e
  end.
Proof.
  unfold build_tables, register_category.
  rewrite (for_each_nested register_key (λ c, default [] (tags c))).
  pose proof (register_keys_spec (items cfg) (Tables [] ∅)) as H.
  fold (items cfg).
  destruct (for_each register_key (items cfg) (Tables [] ∅)) as [t|e];
    [|done].
  destruct H as (Hall & Hkeys & Hlook & Hvals). split_and!; try done.
  intros k w. rewrite Hvals. simpl.
  split; [intros [Hin|?]; [by apply elem_of_nil in Hin | done] | by right].
Qed.

Lemma not_complete spec :
  ¬ complete spec ↔ value spec = None ∨ geometry spec = None.
Proof.
  unfold complete. destruct (value spec), (geometry spec).
  - split; [intros H; destruct H; eauto | intros [[=]|[=]]].
  - split; [by right | intros _ [_ [? [=]]]].
  - split; [by left | intros _ [[? [=]] _]].
  - split; [by left | intros _ [[? [=]] _]].
Qed.

Lemma write_all_lookup_ne m es tag :
  tag ∉ es.*1 → write_all m es !! tag = m !! tag.
Proof.
  revert m. induction es as [|[tag' g'] es IH]; intros m Hnin; [done|].
  rewrite fmap_cons, not_elem_of_cons in Hnin. destruct Hnin as [Hne Hnin].
  simpl in *. rewrite IH by done. by apply lookup_insert_ne.
Qed.

(** The last entry written under a key is the one that stays. *)
Lemma write_all_lookup_last m pre post tag g :
  tag ∉ post.*1 → write_all m (pre ++ (tag, g) :: post) !! tag = Some g.
Proof.
  intros Hnin. rewrite write_all_app. simpl.
  change (foldl _ ?m0 post) with (write_all m0 post).
  rewrite write_all_lookup_ne by done. apply lookup_insert_eq.
Qed.

(** Every key of the lookup was written by some entry. *)
Lemma write_all_lookup_Some m es tag g :
  write_all m es !! tag = Some g → m !! tag = Some g ∨ (tag, g) ∈ es.
Proof.
  revert m. induction es as [|[tag' g'] es IH]; intros m; [by left|].
  simpl. intros H. apply IH in H as [H|H]; [|by right; right].
  rewrite lookup_insert in H. simpl in H. case_decide as Heq.
  - injection H as ->. subst. right. left.
  - by left.
Qed.

(** ** Compiling the taxonomy *)

(** The whole function raises what the table-building loops raise. *)
Lemma extract_raises_with_tables cfg e features_gdf :
  build_tables cfg = Raise e →
  extract_selected_tags_from_osm_complete cfg features_gdf = Raise e.
Proof.
  intros H. unfold extract_selected_tags_from_osm_complete. by rewrite H.
Qed.

(** C3 (as amended). The table-building loops raise exactly when some
    tag specification lacks its ["value"] or its ["geometry"] key, the
    exception is the [KeyError] of that key, and it ends the whole
    function whatever the features are.  Every configuration whose
    specifications have both keys is accepted, whatever the geometry
    is: an empty list is stored like any other. *)
Theorem build_tables_raises_iff_key_missing cfg :
  (Exists (λ d, value d.2 = None ∨ geometry d.2 = None) (declarations cfg)
   ↔ ∃ e, build_tables cfg = Raise e)
  ∧ (∀ e, build_tables cfg = Raise e →
       missing_key e
       ∧ ∀ features_gdf,
           extract_selected_tags_from_osm_complete cfg features_gdf = Raise e)
  ∧ (Forall (λ d, is_Some (value d.2) ∧ is_Some (geometry d.2))
       (declarations cfg)
     ↔ ∃ t, build_tables cfg = Ok t).
Proof.
  pose proof (build_tables_spec cfg) as H.
  destruct (build_tables cfg) as [t|e] eqn:Hb.
  - destruct H as (Hall & _). split_and!.
    + split; [|by intros [? [=]]].
      intros Hex. exfalso. apply Exists_exists in Hex as (d & Hd & Hmiss).
      rewrite Forall_forall in Hall. apply not_complete in Hmiss.
      by apply Hmiss, Hall.
    + by intros ? [=].
    + split; [eauto | by intros _].
  - destruct H as (Hex & He). split_and!.
    + split; [eauto | intros _].
      eapply Exists_impl; [done|]. intros d. apply not_complete.
    + intros ? [= <-]. split; [done|]. intros df.
      by apply extract_raises_with_tables.
    + split; [|by intros [? [=]]].
      intros Hall. exfalso. apply Exists_exists in Hex as (d & Hd & Hmiss).
      rewrite Forall_forall in Hall. by apply Hmiss, Hall.
Qed.

(** C3, the claim as stated fails: a specification whose geometry is the
    empty list is compiled without an error, and the empty list is what
    the lookup holds. *)
Lemma empty_geometry_is_accepted :
  let cfg :=
    [ CategoryConfig (Some "Green")
        (Some [("leisure", [TagSpec (Some "park") (Some (GList []))])]) ] in
  ∃ t, build_tables cfg = Ok t
       ∧ geometry_lookup t !! "leisure=park" = Some (GList []).
Proof. eexists. split; [reflexivity | by vm_compute]. Qed.

Lemma build_tables_raises_iff_key_missing_witness :
  ∃ e, build_tables Sample.park_without_geometry = Raise e.
Proof.
  apply (proj1 (proj1 (build_tables_raises_iff_key_missing
                         Sample.park_without_geometry))).
  constructor. by right.
Defined.

(** C5 (as amended). A configuration whose specifications are complete
    compiles, and the lookup holds, under each tag, the geometry of the
    last declaration in configuration order that forms this tag: when
    two categories declare the same pair with different geometries, the
    later one stays, unless a still later declaration forms the same
    tag. *)
Theorem later_declaration_wins cfg before after tag_key tag_value geometry_spec :
  Forall (λ d, complete d.2) (declarations cfg) →
  declarations cfg
  = before ++ (tag_key, TagSpec (Some tag_value) (Some geometry_spec)) :: after →
  (∀ k s v, (k, s) ∈ after → value s = Some v →
            fmt_tag k v ≠ fmt_tag tag_key tag_value) →
  ∃ t, build_tables cfg = Ok t
       ∧ geometry_lookup t !! fmt_tag tag_key tag_value = Some geometry_spec.
Proof.
  intros Hall Hdecl Hlast.
  pose proof (build_tables_spec cfg) as H.
  destruct (build_tables cfg) as [t|e].
  2:{ destruct H as [Hex _]. apply Exists_exists in Hex as (d & Hd & Hmiss).
      rewrite Forall_forall in Hall. by destruct Hmiss; apply Hall. }
  destruct H as (_ & _ & Hlook & _). exists t. split; [done|].
  rewrite Hlook. unfold entries. rewrite Hdecl, omap_app. simpl.
  apply write_all_lookup_last.
  intros Hin. apply list_elem_of_fmap in Hin as ([tag g] & Htag & Hin).
  simpl in Htag. subst tag.
  apply list_elem_of_omap in Hin as ([k s] & Hks & Hentry).
  unfold entry in Hentry. simpl in Hentry.
  destruct (value s) as [v|] eqn:Hv; [|done]. simpl in Hentry.
  destruct (geometry s); [|done]. simpl in Hentry.
  injection Hentry as Htag _. by eapply Hlast.
Qed.

Lemma later_declaration_wins_witness :
  ∃ t, build_tables Sample.park_twice = Ok t
       ∧ geometry_lookup t !! fmt_tag "park" "yes"
         = Some (GList ["point"; "area"]).
Proof.
  apply (later_declaration_wins Sample.park_twice
           [("park", TagSpec (Some "yes") (Some (GStr "area")))] []
           "park" "yes" (GList ["point"; "area"])).
  - apply (bool_decide_unpack _). vm_compute. exact I.
  - reflexivity.
  - intros k s v Hin. by apply elem_of_nil in Hin.
Defined.

(** ** The order of the query keys *)

Lemma elem_of_first_seen seen ks k :
  k ∈ first_seen seen ks ↔ k ∈ seen ∨ k ∈ ks.
Proof.
  revert seen. induction ks as [|k' ks IH]; intros seen; simpl.
  { split; [by left | intros [?|Hk]; [done | by apply elem_of_nil in Hk]]. }
  rewrite IH, elem_of_cons. case_bool_decide as Hin.
  - split; [intros [?|?]; eauto | intros [?|[->|?]]; eauto].
  - rewrite elem_of_app, list_elem_of_singleton.
    split; [intros [[?|?]|?]; eauto | intros [?|[?|?]]; eauto].
Qed.

Lemma NoDup_first_seen seen ks : NoDup seen → NoDup (first_seen seen ks).
Proof.
  revert seen. induction ks as [|k ks IH]; intros seen Hseen; [done|].
  simpl. apply IH. case_bool_decide as Hin; [done|].
  apply NoDup_app. split_and!; [done| |apply NoDup_singleton].
  intros x Hx ->%list_elem_of_singleton. done.
Qed.

(** Every declared tag key is a query key, once. *)
Lemma key_order_spec cfg :
  NoDup (key_order cfg) ∧ ∀ k, k ∈ key_order cfg ↔ k ∈ (items cfg).*1.
Proof.
  split; [apply NoDup_first_seen, NoDup_nil_2|].
  intros k. unfold key_order. rewrite elem_of_first_seen.
  split; [intros [Hk|?]; [by apply elem_of_nil in Hk | done] | by right].
Qed.

Example key_order_cycleway_first :
  key_order (Sample.cycleway_first ++ Sample.cycleway_first)
  = ["highway"; "amenity"].
Proof. reflexivity. Qed.

(** ** Classification *)

Lemma get_osm_tag_from_skip pre rest row :
  Forall (λ k, ¬ has_value row k) pre →
  get_osm_tag_from (pre ++ rest) row = get_osm_tag_from rest row.
Proof.
  induction 1 as [|k pre Hk _ IH]; [done|]. simpl.
  case_bool_decide as Hin; [|done].
  unfold series_getitem. rewrite bool_decide_eq_true_2 by done. simpl.
  fold (cell_at row k).
  destruct (notna (cell_at row k)) eqn:Hna; [|done].
  by destruct Hk.
Qed.

Lemma get_osm_tag_from_first pre k post row :
  Forall (λ k', ¬ has_value row k') pre →
  has_value row k →
  get_osm_tag_from (pre ++ k :: post) row
  = Ok (fmt_tag k (str (cell_at row k))).
Proof.
  intros Hpre [Hin Hna]. rewrite get_osm_tag_from_skip by done. simpl.
  rewrite bool_decide_eq_true_2 by done.
  unfold series_getitem. rewrite bool_decide_eq_true_2 by done. simpl.
  fold (cell_at row k). by rewrite Hna.
Qed.

Lemma get_osm_tag_from_unknown ks row :
  Forall (λ k, ¬ has_value row k) ks →
  get_osm_tag_from ks row = Ok "unknown".
Proof.
  intros H. rewrite <- (app_nil_r ks). by rewrite get_osm_tag_from_skip.
Qed.

(** Classification never raises. *)
Lemma get_osm_tag_returns q row : ∃ tag, get_osm_tag q row = Ok tag.
Proof.
  unfold get_osm_tag. induction (keys q) as [|k ks IH]; simpl; [eauto|].
  case_bool_decide as Hin; [|done].
  unfold series_getitem. rewrite bool_decide_eq_true_2 by done. simpl.
  destruct (notna _); eauto.
Qed.

(** C2. The keys are scanned in the order in which the configuration
    first declares them; the first one the feature has with a non-null
    value gives the tag ["{key}={value}"], whatever keys come after it,
    and a feature that has none of them with a non-null value is tagged
    ["unknown"]. *)
Theorem get_osm_tag_first_match_wins cfg t row :
  build_tables cfg = Ok t →
  (∀ earlier tag_key later,
     key_order cfg = earlier ++ tag_key :: later →
     Forall (λ k, ¬ has_value row k) earlier →
     has_value row tag_key →
     get_osm_tag (osm_query_tags t) row
     = Ok (fmt_tag tag_key (str (cell_at row tag_key))))
  ∧ (Forall (λ k, ¬ has_value row k) (key_order cfg) →
     get_osm_tag (osm_query_tags t) row = Ok "unknown").
Proof.
  intros Hb. pose proof (build_tables_spec cfg) as H. rewrite Hb in H.
  destruct H as (_ & Hkeys & _). unfold get_osm_tag. rewrite Hkeys. split.
  - intros pre k post -> Hpre Hk. by apply get_osm_tag_from_first.
  - apply get_osm_tag_from_unknown.
Qed.

Lemma get_osm_tag_first_match_wins_witness :
  ∃ t, build_tables Sample.cycleway_first = Ok t
       ∧ get_osm_tag (osm_query_tags t) Sample.bench_on_cycleway
         = Ok "highway=cycleway".
Proof.
  eexists. split; [reflexivity|].
  apply (proj1 (get_osm_tag_first_match_wins Sample.cycleway_first _
                  Sample.bench_on_cycleway eq_refl)
           [] "highway" ["amenity"]).
  - reflexivity.
  - constructor.
  - split; [|reflexivity]. apply (bool_decide_unpack _). vm_compute. exact I.
Defined.

(** ** The geometry filter *)

Import GeometryValidator.

(** The code looks the shape up under each allowed name; the
    specification maps the shape to its kind.  Both say the same. *)
Lemma mapping_shape_kind allowed_type shape :
  shape ∈ default [] (get geometry_type_mapping allowed_type)
  ↔ ∃ kind, shape_kind shape = Some kind ∧ allowed_type = kind_name kind.
Proof.
  split.
  - unfold geometry_type_mapping, get.
    repeat case_decide; subst; simpl; intros Hin;
      repeat (apply elem_of_cons in Hin as [->|Hin]);
      try (by apply elem_of_nil in Hin);
      by (eexists; split; [reflexivity|]).
  - intros (kind & Hkind & ->). unfold shape_kind in Hkind.
    destruct (decide (shape = "Point")) as [->|_].
    { injection Hkind as <-. apply (bool_decide_unpack _). vm_compute. exact I. }
    destruct (decide (shape = "Polygon" ∨ shape = "MultiPolygon"))
      as [[->| ->]|_].
    1,2: injection Hkind as <-; apply (bool_decide_unpack _); vm_compute;
         exact I.
    destruct (decide (shape = "LineString" ∨ shape = "MultiLineString"))
      as [[->| ->]|_]; [| |done].
    all: injection Hkind as <-; apply (bool_decide_unpack _); vm_compute;
         exact I.
Qed.

Lemma matches_any_kind shape allowed :
  matches_any shape allowed = true
  ↔ ∃ kind, shape_kind shape = Some kind ∧ kind_name kind ∈ allowed.
Proof.
  unfold matches_any. rewrite existsb_exists. split.
  - intros (a & Hin & Hm). apply bool_decide_eq_true in Hm.
    apply mapping_shape_kind in Hm as (kind & Hk & ->).
    exists kind. split; [done|]. by apply list_elem_of_In.
  - intros (kind & Hk & Hin). exists (kind_name kind).
    split; [by apply list_elem_of_In|].
    apply bool_decide_eq_true, mapping_shape_kind. eauto.
Qed.

Lemma matches_any_no_match shape allowed :
  matches_any shape allowed = false ↔ no_match shape allowed.
Proof.
  unfold matches_any, no_match. rewrite <- not_true_iff_false, existsb_exists.
  split.
  - intros Hno a Hin Hm. apply Hno. exists a.
    split; [by apply list_elem_of_In | by apply bool_decide_eq_true].
  - intros Hno (a & Hin & Hm). apply bool_decide_eq_true in Hm.
    by eapply Hno; [apply list_elem_of_In|].
Qed.

(** The filter, for a row with a geometry and a tag, is the validator of
    the specification. *)
Lemma should_keep_feature_accept lookup d row g tag :
  series_getattr row "geometry" = Ok (Geom g) →
  series_getitem row "osm_tag" = Ok tag →
  should_keep_feature lookup d row
  = Ok (outcome (accept tag (geom_type g) lookup) d tag (geom_type g)).
Proof.
  intros Hg Htag. unfold should_keep_feature, accept.
  rewrite Hg. simpl. rewrite Htag. simpl.
  case_bool_decide as Hunk; [by rewrite decide_True|].
  rewrite decide_False by done.
  destruct (lookup_cell lookup tag) as [allowed|]; [|done].
  case_bool_decide as Hany; [by rewrite decide_True|].
  rewrite decide_False by done.
  change (normalize allowed) with (allowed_set allowed).
  destruct (matches_any (geom_type g) (allowed_set allowed)) eqn:Hm.
  - apply matches_any_kind in Hm as (kind & -> & Hin).
    by rewrite decide_True.
  - destruct (shape_kind (geom_type g)) as [kind|] eqn:Hk; [|done].
    rewrite decide_False; [done|]. intros Hin.
    apply not_true_iff_false in Hm. apply Hm, matches_any_kind. eauto.
Qed.

(** C1. On every classified feature the filter decides as the validator
    of the specification does: an ["unknown"] tag or a tag outside the
    lookup is rejected and recorded in [unknown_tags]; a tag whose
    constraint is ["any"] is kept; otherwise the feature is kept exactly
    when the kind of its shape is in the allowed set, and a rejected one
    is recorded in [excluded_by_geometry]. *)
Theorem should_keep_feature_refines_validator lookup d row g tag :
  series_getattr row "geometry" = Ok (Geom g) →
  series_getitem row "osm_tag" = Ok tag →
  should_keep_feature lookup d row
  = Ok (outcome (accept tag (geom_type g) lookup) d tag (geom_type g)).
Proof. apply should_keep_feature_accept. Qed.

Lemma should_keep_feature_refines_validator_witness :
  should_keep_feature {[ "leisure=park" := GStr "area" ]} no_diagnostics
    Sample.park_as_point
  = Ok (false, mkDiagnostics ∅ {[ "leisure=park (geometry: Point)" ]}).
Proof.
  rewrite (should_keep_feature_refines_validator
             {[ "leisure=park" := GStr "area" ]} no_diagnostics
             Sample.park_as_point
             (mkGeometry "Point" "POINT (0 0)") (Str "leisure=park")
             eq_refl eq_refl).
  vm_compute. reflexivity.
Defined.

(** ** Row-wise application *)

Lemma apply_rows_pure {S B} (f : S → Series → result (B * S)) cols rs s
    (g : record → B) (h : S → record → S) :
  (∀ s r, r ∈ rs → f s (mkSeries cols r) = Ok (g r, h s r)) →
  apply_rows f cols rs s = Ok (g <$> rs, foldl h s rs).
Proof.
  revert s. induction rs as [|r rs IH]; intros s Hf; [done|].
  simpl. rewrite Hf by left. simpl.
  rewrite IH by (intros; apply Hf; by right). done.
Qed.

Lemma zip_with_fmap_diag {A B C} (f : A → B → C) (g : A → B) (l : list A) :
  zip_with f l (g <$> l) = (λ x, f x (g x)) <$> l.
Proof. induction l as [|x l IH]; [done|]. csimpl. by f_equal. Qed.

Lemma mask_fmap {A} (f : A → bool) (l : list A) :
  (filter (λ p, p.2 = true) (zip l (f <$> l))).*1 = filter (λ x, f x = true) l.
Proof.
  induction l as [|x l IH]; [done|]. csimpl.
  rewrite !filter_cons. simpl. destruct (f x) eqn:Hf.
  - rewrite !decide_True by done. csimpl. by f_equal.
  - rewrite !decide_False by done. apply IH.
Qed.

(** ** Classification of a frame *)

Lemma add_osm_tag_spec t df : add_osm_tag t df = Ok (classified t df).
Proof.
  unfold add_osm_tag, apply.
  rewrite (apply_rows_pure _ _ _ _
             (λ r, Str (tag_of t (columns df) r)) (λ u _, u)).
  - simpl. unfold set_column, classified. f_equal. f_equal.
    apply zip_with_fmap_diag.
  - intros [] r _. unfold tag_of.
    destruct (get_osm_tag_returns (osm_query_tags t)
                (mkSeries (columns df) r)) as [tag ->]. done.
Qed.

Lemma geo_frame_classified t df : geo_frame df → geo_frame (classified t df).
Proof.
  intros [Hcol Hrows]. split; simpl.
  - case_bool_decide; [done|]. apply elem_of_app. by left.
  - apply Forall_fmap. eapply Forall_impl; [done|]. intros r [g Hg]. simpl.
    exists g. unfold tagged. by rewrite lookup_insert_ne.
Qed.

Lemma osm_tag_in_classified t df : "osm_tag" ∈ columns (classified t df).
Proof.
  simpl. case_bool_decide; [done|].
  apply elem_of_app. right. by apply list_elem_of_singleton.
Qed.

(** ** Filtering a frame *)

Lemma outcome_keeps dec d c shape :
  outcome dec d c shape = (keeps dec, (outcome dec d c shape).2).
Proof. by destruct dec as [|[]]. Qed.

Lemma should_keep_feature_record t d cols r :
  "geometry" ∈ cols → "osm_tag" ∈ cols →
  (∃ g, r !! "geometry" = Some (Geom g)) →
  should_keep_feature (geometry_lookup t) d (mkSeries cols r)
  = Ok (keeps (decision_of t r), record_diagnostics t d r).
Proof.
  intros Hgeo Htag [g Hg].
  rewrite (should_keep_feature_accept _ _ _ g (tag_cell r)).
  - unfold record_diagnostics, decision_of, shape_of. rewrite Hg.
    by rewrite <- outcome_keeps.
  - unfold series_getattr. simpl.
    by rewrite bool_decide_eq_true_2, Hg by done.
  - unfold series_getitem. simpl. by rewrite bool_decide_eq_true_2 by done.
Qed.

Lemma filter_features_spec t df :
  geo_frame df → "osm_tag" ∈ columns df →
  filter_features t df = Ok (filtered t df, diagnostics_of t (records df)).
Proof.
  intros [Hgeo Hrows] Htag. unfold filter_features, apply.
  rewrite (apply_rows_pure _ _ _ _
             (λ r, keeps (decision_of t r)) (record_diagnostics t)).
  - simpl. unfold boolean_mask, filtered. by rewrite mask_fmap.
  - intros d r Hr. apply should_keep_feature_record; [done..|].
    rewrite Forall_forall in Hrows. by apply Hrows.
Qed.

(** Classification and filter of a frame never raise, and this is what
    they return. *)
Lemma classify_and_filter_spec t df :
  geo_frame df →
  classify_and_filter t df
  = Ok (filtered t (classified t df),
        diagnostics_of t (records (classified t df))).
Proof.
  intros Hgeo. unfold classify_and_filter. rewrite add_osm_tag_spec. simpl.
  apply filter_features_spec;
    [by apply geo_frame_classified | apply osm_tag_in_classified].
Qed.

Lemma unknown_tags_foldl t rs d c :
  c ∈ unknown_tags (foldl (record_diagnostics t) d rs)
  ↔ c ∈ unknown_tags d
    ∨ ∃ r, r ∈ rs ∧ decision_of t r = Reject unrecognizedTag ∧ tag_cell r = c.
Proof.
  revert d. induction rs as [|r rs IH]; intros d; simpl.
  { split; [by left | intros [?|(r & Hr & _)]; [done|]].
    by apply elem_of_nil in Hr. }
  rewrite IH. setoid_rewrite elem_of_cons. unfold record_diagnostics at 1.
  destruct (decision_of t r) as [|[]] eqn:Hdec; simpl.
  - split; [intros [?|(r' & ? & ? & ?)]; eauto 6 |].
    intros [?|(r' & [->|?] & Hr' & ?)]; eauto 6. congruence.
  - rewrite elem_of_union, elem_of_singleton.
    split; [intros [[->|?]|(r' & ? & ? & ?)]; eauto 7 |].
    intros [?|(r' & [->|?] & Hr' & ?)]; eauto 7.
  - split; [intros [?|(r' & ? & ? & ?)]; eauto 6 |].
    intros [?|(r' & [->|?] & Hr' & ?)]; eauto 6. congruence.
Qed.

Lemma excluded_by_geometry_foldl t rs d m :
  m ∈ excluded_by_geometry (foldl (record_diagnostics t) d rs)
  ↔ m ∈ excluded_by_geometry d
    ∨ ∃ r, r ∈ rs ∧ decision_of t r = Reject geometryMismatch
           ∧ fmt_mismatch (tag_cell r) (shape_of r) = m.
Proof.
  revert d. induction rs as [|r rs IH]; intros d; simpl.
  { split; [by left | intros [?|(r & Hr & _)]; [done|]].
    by apply elem_of_nil in Hr. }
  rewrite IH. setoid_rewrite elem_of_cons. unfold record_diagnostics at 1.
  destruct (decision_of t r) as [|[]] eqn:Hdec; simpl.
  - split; [intros [?|(r' & ? & ? & ?)]; eauto 6 |].
    intros [?|(r' & [->|?] & Hr' & ?)]; eauto 6. congruence.
  - split; [intros [?|(r' & ? & ? & ?)]; eauto 6 |].
    intros [?|(r' & [->|?] & Hr' & ?)]; eauto 6. congruence.
  - rewrite elem_of_union, elem_of_singleton.
    split; [intros [[->|?]|(r' & ? & ? & ?)]; eauto 7 |].
    intros [?|(r' & [->|?] & Hr' & ?)]; eauto 7.
Qed.

Lemma tagged_lookups t cols r tag :
  get_osm_tag (osm_query_tags t) (mkSeries cols r) = Ok tag →
  tagged t cols r = <["osm_tag" := Str tag]> r
  ∧ tag_cell (tagged t cols r) = Str tag
  ∧ tagged t cols r !! "geometry" = r !! "geometry".
Proof.
  intros Htag. unfold tagged, tag_cell, tag_of. rewrite Htag.
  by rewrite lookup_insert_eq, lookup_insert_ne.
Qed.

(** C7. On a frame of features, with any tables, classification and
    filter return and do not raise.  Every feature gets a tag; a feature
    the validator accepts is among the kept rows; one it rejects is not,
    and its tag is in [unknown_tags], or its tag and shape are in
    [excluded_by_geometry]. *)
Theorem classify_and_filter_never_raises t df :
  geo_frame df →
  ∃ kept d,
    classify_and_filter t df = Ok (kept, d)
    ∧ ∀ r, r ∈ records df →
        ∃ tag g,
          get_osm_tag (osm_query_tags t) (mkSeries (columns df) r) = Ok tag
          ∧ r !! "geometry" = Some (Geom g)
          ∧ match accept (Str tag) (geom_type g) (geometry_lookup t) with
            | Keep => <["osm_tag" := Str tag]> r ∈ records kept
            | Reject unrecognizedTag =>
                ((<["osm_tag" := Str tag]> r) ∉ records kept)
                ∧ Str tag ∈ unknown_tags d
            | Reject geometryMismatch =>
                ((<["osm_tag" := Str tag]> r) ∉ records kept)
                ∧ fmt_mismatch (Str tag) (geom_type g)
                  ∈ excluded_by_geometry d
            end.
Proof.
  intros Hgeo. eexists _, _. split; [by apply classify_and_filter_spec|].
  intros r Hr.
  destruct (get_osm_tag_returns (osm_query_tags t) (mkSeries (columns df) r))
    as [tag Htag].
  destruct Hgeo as [_ Hrows]. rewrite Forall_forall in Hrows.
  destruct (Hrows r Hr) as [g Hg]. exists tag, g. split_and!; [done..|].
  destruct (tagged_lookups t (columns df) r tag Htag) as (Heq & Hcell & Hgeom).
  rewrite <- Heq. rewrite Hg in Hgeom.
  assert (decision_of t (tagged t (columns df) r)
          = accept (Str tag) (geom_type g) (geometry_lookup t)) as Hdec.
  { unfold decision_of, shape_of. by rewrite Hcell, Hgeom. }
  assert (tagged t (columns df) r ∈ records (classified t df)) as Hin.
  { simpl. by apply list_elem_of_fmap_2. }
  rewrite <- Hdec. simpl in *.
  destruct (decision_of t (tagged t (columns df) r)) as [|[]] eqn:Hd.
  - apply list_elem_of_filter. by rewrite Hd.
  - split.
    + rewrite list_elem_of_filter, Hd. by intros [? _].
    + apply unknown_tags_foldl. right. eauto.
  - split.
    + rewrite list_elem_of_filter, Hd. by intros [? _].
    + apply excluded_by_geometry_foldl. right. eexists. split_and!; [done..|].
      unfold shape_of. by rewrite Hcell, Hgeom.
Qed.

Lemma geo_frame_sample : geo_frame Sample.frame.
Proof.
  split; [apply (bool_decide_unpack _); vm_compute; exact I|].
  repeat constructor; eexists; vm_compute; reflexivity.
Defined.

Lemma classify_and_filter_never_raises_witness :
  ∃ kept d, classify_and_filter Sample.park_tables Sample.frame = Ok (kept, d).
Proof.
  destruct (classify_and_filter_never_raises Sample.park_tables Sample.frame
              geo_frame_sample) as (kept & d & H & _).
  by exists kept, d.
Defined.

(** ** The output columns *)

Lemma select_output_spec df :
  "osm_tag" ∈ columns df → "geometry" ∈ columns df →
  select_output df
  = Ok (mkFrame ["name"; "osm_tag"; "geometry"]
          (output_record (bool_decide ("name" ∈ columns df)) <$> records df)).
Proof.
  intros Htag Hgeo. unfold select_output, select_columns. simpl.
  case_bool_decide as Hname.
  - rewrite !filter_cons, !decide_False, filter_nil by (by intros H; apply H).
    done.
  - unfold fill_column, set_column. simpl.
    rewrite bool_decide_eq_false_2 by done.
    rewrite !filter_cons, filter_nil.
    rewrite decide_False
      by (intros H; apply H, elem_of_app; right; by left).
    rewrite !decide_False
      by (intros H; apply H, elem_of_app; by left).
    rewrite zip_with_replicate_r_eq by done.
    by rewrite <- list_fmap_compose.
Qed.

(** The whole function on a frame of features. *)
Lemma extract_spec cfg t df :
  build_tables cfg = Ok t → geo_frame df →
  extract_selected_tags_from_osm_complete cfg df
  = Ok (mkFrame ["name"; "osm_tag"; "geometry"]
          (output_record (bool_decide ("name" ∈ columns df))
             <$> records (filtered t (classified t df))),
        diagnostics_of t (records (classified t df))).
Proof.
  intros Hb Hgeo. unfold extract_selected_tags_from_osm_complete.
  rewrite Hb. simpl. rewrite classify_and_filter_spec by done. simpl.
  rewrite select_output_spec.
  - simpl. do 3 f_equal.
    destruct (bool_decide ("osm_tag" ∈ columns df)); [done|].
    do 2 f_equal. apply bool_decide_ext. rewrite elem_of_app, list_elem_of_singleton.
    split; [intros [?|[=]]; done | by left].
  - apply osm_tag_in_classified.
  - by apply geo_frame_classified.
Qed.

(** The run on the sample frame: the park is kept, the point is a
    geometry mismatch, the garden and the untagged way are unknown. *)
Example sample_run :
  ∃ out d,
    extract_selected_tags_from_osm_complete Sample.park_area Sample.frame
    = Ok (out, d)
    ∧ out = mkFrame ["name"; "osm_tag"; "geometry"]
              [ {[ "name" := PyNone; "osm_tag" := Str "leisure=park";
                   "geometry" := Sample.polygon ]} ]
    ∧ unknown_tags d = {[ Str "leisure=garden"; Str "unknown" ]}
    ∧ excluded_by_geometry d = {[ "leisure=park (geometry: Point)" ]}.
Proof.
  exists (mkFrame ["name"; "osm_tag"; "geometry"]
            [ {[ "name" := PyNone; "osm_tag" := Str "leisure=park";
                 "geometry" := Sample.polygon ]} ]),
         (mkDiagnostics {[ Str "leisure=garden"; Str "unknown" ]}
            {[ "leisure=park (geometry: Point)" ]}).
  split_and!; [by_evaluation | done..].
Qed.

Lemma lookup_output_record has_name (r : record) k :
  output_record has_name r !! k
  = if decide (k ∈ ["name"; "osm_tag"; "geometry"])
    then (if has_name then r else <["name" := PyNone]> r) !! k
    else None.
Proof.
  unfold output_record. rewrite map_lookup_filter.
  destruct (_ !! k) as [c|]; simpl; [|by case_decide].
  case_decide.
  - by rewrite option_guard_True.
  - by rewrite option_guard_False.
Qed.

(** C8. The output frame of a run has exactly the columns [name],
    [osm_tag] and [geometry], one record per kept feature and in the
    same order; each record carries the tag and the geometry of its
    feature and nothing outside the three columns, and when the feature
    frame has no [name] column the name of every record is [None]. *)
Theorem output_columns_name_osm_tag_geometry cfg t df :
  build_tables cfg = Ok t → geo_frame df →
  ∃ kept d out,
    classify_and_filter t df = Ok (kept, d)
    ∧ extract_selected_tags_from_osm_complete cfg df = Ok (out, d)
    ∧ columns out = ["name"; "osm_tag"; "geometry"]
    ∧ Forall2
        (λ (r o : record),
           o !! "osm_tag" = r !! "osm_tag"
           ∧ o !! "geometry" = r !! "geometry"
           ∧ o !! "name" = (if decide ("name" ∈ columns df) then r !! "name"
                            else Some PyNone)
           ∧ ∀ k, k ∉ ["name"; "osm_tag"; "geometry"] → o !! k = None)
        (records kept) (records out).
Proof.
  intros Hb Hgeo. eexists _, _, _.
  split; [by apply classify_and_filter_spec|].
  split; [by apply extract_spec|]. split; [done|]. simpl.
  apply Forall2_fmap_r, Forall_Forall2_diag, Forall_forall. intros r _. simpl.
  rewrite !lookup_output_record. split_and!.
  - rewrite decide_True by (apply (bool_decide_unpack _); by vm_compute).
    case_bool_decide; [done | by rewrite lookup_insert_ne].
  - rewrite decide_True by (apply (bool_decide_unpack _); by vm_compute).
    case_bool_decide; [done | by rewrite lookup_insert_ne].
  - rewrite decide_True by (apply (bool_decide_unpack _); by vm_compute).
    case_bool_decide.
    + by rewrite decide_True.
    + by rewrite decide_False, lookup_insert_eq.
  - intros k Hk. rewrite lookup_output_record. by rewrite decide_False.
Qed.

Lemma output_columns_name_osm_tag_geometry_witness :
  ∃ out d,
    extract_selected_tags_from_osm_complete Sample.park_area Sample.frame
    = Ok (out, d)
    ∧ columns out = ["name"; "osm_tag"; "geometry"]
    ∧ length (records out) = 1.
Proof.
  destruct (output_columns_name_osm_tag_geometry Sample.park_area
              Sample.park_tables Sample.frame eq_refl geo_frame_sample)
    as (kept & d & out & Hkept & Hout & Hcols & Hrecs).
  exists out, d. split_and!; [done..|].
  apply Forall2_length in Hrecs. rewrite <- Hrecs.
  injection Hkept as <- _. reflexivity.
Defined.

(** ** Tags as strings *)

Lemma has_char_fmt_tag k v : has_char "=" (fmt_tag k v) = true.
Proof.
  unfold fmt_tag. induction k as [|c k IH]; [done|].
  simpl. rewrite IH. apply orb_true_r.
Qed.

Lemma fmt_tag_not_unknown k v : fmt_tag k v ≠ "unknown".
Proof.
  intros H. pose proof (has_char_fmt_tag k v) as Hc. by rewrite H in Hc.
Qed.

Lemma str_split_no_sep c s : has_char c s = false → str_split c s = [s].
Proof.
  induction s as [|c' s IH]; [done|]. simpl.
  intros [Hc Hs]%orb_false_iff. by rewrite Hc, IH.
Qed.

(** A tag splits into its key and its value when neither holds the
    separator. *)
Lemma str_split_fmt_tag k v :
  has_char "=" k = false → has_char "=" v = false →
  str_split "=" (fmt_tag k v) = [k; v].
Proof.
  intros Hk Hv. unfold fmt_tag. induction k as [|c k IH]; simpl.
  - by rewrite str_split_no_sep.
  - simpl in Hk. apply orb_false_iff in Hk as [Hc Hk].
    by rewrite Hc, IH.
Qed.

(** ** Kept features and the taxonomy *)

Lemma accept_Keep_inv c shape lookup :
  accept c shape lookup = Keep →
  ∃ tag allowed, c = Str tag ∧ lookup !! tag = Some allowed.
Proof.
  unfold accept. case_decide; [done|].
  destruct c as [| |tag|g]; simpl; try done.
  destruct (lookup !! tag) as [allowed|] eqn:Hl; [|done].
  intros _. by exists tag, allowed.
Qed.

(** Every tag of the lookup is the tag of a declared pair. *)
Lemma lookup_declared cfg t tag allowed :
  build_tables cfg = Ok t →
  geometry_lookup t !! tag = Some allowed →
  ∃ k s v, (k, s) ∈ declarations cfg ∧ value s = Some v ∧ tag = fmt_tag k v
           ∧ v ∈ default [] (get (osm_query_tags t) k)
           ∧ k ∈ keys (osm_query_tags t).
Proof.
  intros Hb Hl. pose proof (build_tables_spec cfg) as H. rewrite Hb in H.
  destruct H as (_ & _ & Hlook & Hvals). rewrite Hlook in Hl.
  apply write_all_lookup_Some in Hl as [Hl|Hin];
    [by rewrite lookup_empty in Hl|].
  apply list_elem_of_omap in Hin as ([k s] & Hks & Hentry).
  unfold entry in Hentry. simpl in Hentry.
  destruct (value s) as [v|] eqn:Hv; [|done]. simpl in Hentry.
  destruct (geometry s); [|done]. simpl in Hentry.
  injection Hentry as <- _.
  assert (v ∈ default [] (get (osm_query_tags t) k)) as Hin
    by (apply Hvals; eauto).
  exists k, s, v. split_and!; try done.
  apply get_is_Some. destruct (get (osm_query_tags t) k); [eauto|].
  by apply elem_of_nil in Hin.
Qed.

(** C6 (as amended). When no declared key and no declared value holds
    the character [=], the [osm_tag] of every output record splits on
    [=] into exactly a key and a value; the key is a query key, the value
    is among the values queried for it, and the tag is in the geometry
    lookup. *)
Theorem kept_tag_splits_into_declared_pair cfg t df :
  build_tables cfg = Ok t → geo_frame df →
  (∀ k s, (k, s) ∈ declarations cfg →
     has_char "=" k = false
     ∧ ∀ v, value s = Some v → has_char "=" v = false) →
  ∃ out d,
    extract_selected_tags_from_osm_complete cfg df = Ok (out, d)
    ∧ ∀ o : record, o ∈ records out →
        ∃ k v,
          o !! "osm_tag" = Some (Str (fmt_tag k v))
          ∧ str_split "=" (fmt_tag k v) = [k; v]
          ∧ k ∈ keys (osm_query_tags t)
          ∧ v ∈ default [] (get (osm_query_tags t) k)
          ∧ is_Some (geometry_lookup t !! fmt_tag k v).
Proof.
  intros Hb Hgeo Hplain. eexists _, _. split; [by apply extract_spec|].
  simpl. intros o Ho.
  apply list_elem_of_fmap in Ho as (r & -> & Hr).
  apply list_elem_of_filter in Hr as [Hkeep Hr].
  apply list_elem_of_fmap in Hr as (r0 & -> & _).
  destruct (decision_of t (tagged t (columns df) r0)) eqn:Hdec; [|done].
  apply accept_Keep_inv in Hdec as (tag & allowed & Hcell & Hl).
  destruct (lookup_declared cfg t tag allowed Hb Hl)
    as (k & s & v & Hks & Hv & -> & Hin & Hk).
  destruct (Hplain k s Hks) as [Hck Hcv].
  exists k, v. split_and!; [|by apply str_split_fmt_tag; eauto|done..|eauto].
  rewrite lookup_output_record.
  rewrite decide_True by (apply (bool_decide_unpack _); by vm_compute).
  unfold tag_cell, tagged in Hcell. rewrite lookup_insert_eq in Hcell.
  simpl in Hcell.
  assert (tagged t (columns df) r0 !! "osm_tag" = Some (Str (fmt_tag k v)))
    as Htag by (unfold tagged; by rewrite lookup_insert_eq, Hcell).
  case_bool_decide; [done | by rewrite lookup_insert_ne].
Qed.

Lemma kept_tag_splits_into_declared_pair_witness :
  ∃ out d,
    extract_selected_tags_from_osm_complete Sample.park_area Sample.frame
    = Ok (out, d)
    ∧ ∀ o : record, o ∈ records out →
        ∃ k v, o !! "osm_tag" = Some (Str (fmt_tag k v))
               ∧ str_split "=" (fmt_tag k v) = [k; v].
Proof.
  destruct (kept_tag_splits_into_declared_pair Sample.park_area
              Sample.park_tables Sample.frame eq_refl geo_frame_sample)
    as (out & d & Hout & Hrecs).
  - intros k s Hks.
    apply list_elem_of_singleton in Hks. injection Hks as -> ->.
    split; [reflexivity|]. by intros v [= <-].
  - exists out, d. split; [done|]. intros o Ho.
    destruct (Hrecs o Ho) as (k & v & ? & ? & _). eauto.
Defined.

(** C6, the claim as stated fails: a kept feature whose tag
    ["ref=old=x=y"] splits on [=] into four parts; neither its first part
    nor all but its last part is a query key. *)
Lemma tag_with_separator_does_not_split :
  ∃ out d o,
    extract_selected_tags_from_osm_complete Sample.old_refs
      Sample.old_refs_frame = Ok (out, d)
    ∧ records out = [o]
    ∧ o !! "osm_tag" = Some (Str "ref=old=x=y")
    ∧ str_split "=" "ref=old=x=y" = ["ref"; "old"; "x"; "y"]
    ∧ ∃ t, build_tables Sample.old_refs = Ok t
           ∧ osm_query_tags t = [("ref=old", ["x=y"])].
Proof.
  eexists _, _, _. split_and!; [by vm_compute | reflexivity | by vm_compute
    | reflexivity |].
  eexists. split; reflexivity.
Qed.

(** ** Running the filter again *)

(** The tag depends only on the cells under the query keys. *)
Lemma get_osm_tag_from_ext ks cols (r : record) cols' (r' : record) :
  (∀ k, k ∈ ks → (k ∈ cols ↔ k ∈ cols') ∧ r !! k = r' !! k) →
  get_osm_tag_from ks (mkSeries cols r) = get_osm_tag_from ks (mkSeries cols' r').
Proof.
  induction ks as [|k ks IH]; intros Hsame; [done|]. simpl.
  destruct (Hsame k) as [Hcols Hcell]; [left|].
  rewrite IH by (intros; apply Hsame; by right).
  rewrite (bool_decide_ext _ _ Hcols).
  case_bool_decide as Hin; [|done].
  unfold series_getitem. simpl.
  rewrite !bool_decide_eq_true_2 by (done || by apply Hcols).
  by rewrite Hcell.
Qed.

Lemma tag_of_tagged t df r :
  "osm_tag" ∉ keys (osm_query_tags t) →
  tag_of t (columns (classified t df)) (tagged t (columns df) r)
  = tag_of t (columns df) r.
Proof.
  intros Hnot. unfold tag_of, get_osm_tag.
  rewrite (get_osm_tag_from_ext _ _ _ (columns df) r); [done|].
  intros k Hk. assert (k ≠ "osm_tag") as Hne by (by intros ->).
  split; [|unfold tagged; by rewrite lookup_insert_ne].
  simpl. case_bool_decide; [done|].
  rewrite elem_of_app, list_elem_of_singleton. split; [by intros [?|?] | by left].
Qed.

Lemma classified_kept t df :
  "osm_tag" ∉ keys (osm_query_tags t) →
  classified t (filtered t (classified t df)) = filtered t (classified t df).
Proof.
  intros Hnot. unfold classified at 1. simpl.
  rewrite (bool_decide_eq_true_2 _ (osm_tag_in_classified t df)).
  unfold filtered. simpl. f_equal.
  change (if bool_decide ("osm_tag" ∈ columns df) then columns df
          else columns df ++ ["osm_tag"]) with (columns (classified t df)).
  rewrite <- (list_fmap_id (filter _ _)) at 2.
  apply Forall_fmap_ext, Forall_forall. intros r' Hr'.
  apply list_elem_of_filter in Hr' as [_ Hr'].
  apply list_elem_of_fmap in Hr' as (r & -> & _).
  unfold tagged at 1. rewrite tag_of_tagged by done.
  unfold tagged. by rewrite insert_insert_eq.
Qed.

Lemma filter_twice {A} (P : A → Prop) `{∀ x, Decision (P x)} (l : list A) :
  filter P (filter P l) = filter P l.
Proof.
  induction l as [|x l IH]; [done|]. rewrite filter_cons.
  case_decide; [|done]. by rewrite filter_cons, decide_True, IH.
Qed.

Lemma diagnostics_of_kept t (rs : list record) d :
  foldl (record_diagnostics t) d
    (filter (λ r, keeps (decision_of t r) = true) rs) = d.
Proof.
  revert d. induction rs as [|r rs IH]; intros d; [done|].
  rewrite filter_cons. case_decide as Hk; [|done]. simpl.
  unfold record_diagnostics at 2.
  destruct (decision_of t r); [apply IH | done].
Qed.

(** C4 (as amended). On the kept features as they are before the output
    columns are selected, and when [osm_tag] is not itself a configured
    tag key, classifying and filtering once more keeps every feature and
    reports nothing. *)
Theorem kept_features_are_kept_again t df :
  geo_frame df →
  "osm_tag" ∉ keys (osm_query_tags t) →
  ∃ kept d,
    classify_and_filter t df = Ok (kept, d)
    ∧ classify_and_filter t kept = Ok (kept, no_diagnostics).
Proof.
  intros Hgeo Hnot. eexists _, _.
  split; [by apply classify_and_filter_spec|].
  assert (geo_frame (filtered t (classified t df))) as Hgeo'.
  { destruct (geo_frame_classified t df Hgeo) as [Hcol Hrows].
    split; [done|]. simpl. rewrite Forall_forall in Hrows |- *.
    intros r [_ Hr]%list_elem_of_filter. by apply Hrows. }
  rewrite classify_and_filter_spec by done.
  rewrite classified_kept by done. do 2 f_equal.
  - unfold filtered. simpl. f_equal. apply filter_twice.
  - apply diagnostics_of_kept.
Qed.

Lemma kept_features_are_kept_again_witness :
  ∃ kept d,
    classify_and_filter Sample.park_tables Sample.frame = Ok (kept, d)
    ∧ classify_and_filter Sample.park_tables kept = Ok (kept, no_diagnostics).
Proof.
  apply (kept_features_are_kept_again Sample.park_tables Sample.frame
           geo_frame_sample).
  apply (bool_decide_unpack _). vm_compute. exact I.
Defined.

(** C4, the claim as stated fails: the output of a run has only the
    columns [name], [osm_tag] and [geometry]; run on it, the function
    tags the one kept feature ["unknown"] and keeps nothing.  And with
    [osm_tag] as the first tag key, the kept frame itself, which has an
    [osm_tag] column, is tagged anew from that column and rejected. *)
Lemma output_is_rejected_when_run_again :
  (∃ out d out' d',
     extract_selected_tags_from_osm_complete Sample.park_area Sample.frame
     = Ok (out, d)
     ∧ length (records out) = 1
     ∧ extract_selected_tags_from_osm_complete Sample.park_area out
       = Ok (out', d')
     ∧ records out' = []
     ∧ unknown_tags d' = {[ Str "unknown" ]})
  ∧ (∃ kept d kept' d',
       build_tables Sample.osm_tag_first = Ok Sample.osm_tag_as_key
       ∧ classify_and_filter Sample.osm_tag_as_key Sample.frame = Ok (kept, d)
       ∧ length (records kept) = 1
       ∧ classify_and_filter Sample.osm_tag_as_key kept = Ok (kept', d')
       ∧ records kept' = []
       ∧ unknown_tags d' = {[ Str "osm_tag=leisure=park" ]}).
Proof.
  split.
  - exists (mkFrame ["name"; "osm_tag"; "geometry"]
              [ {[ "name" := PyNone; "osm_tag" := Str "leisure=park";
                   "geometry" := Sample.polygon ]} ]),
           (mkDiagnostics {[ Str "leisure=garden"; Str "unknown" ]}
              {[ "leisure=park (geometry: Point)" ]}),
           (mkFrame ["name"; "osm_tag"; "geometry"] []),
           (mkDiagnostics {[ Str "unknown" ]} ∅).
    split_and!; [by_evaluation | done | by_evaluation | done..].
  - exists (mkFrame ["geometry"; "leisure"; "osm_tag"]
              [ {[ "geometry" := Sample.polygon; "leisure" := Str "park";
                   "osm_tag" := Str "leisure=park" ]} ]),
           (mkDiagnostics {[ Str "leisure=garden"; Str "unknown" ]}
              {[ "leisure=park (geometry: Point)" ]}),
           (mkFrame ["geometry"; "leisure"; "osm_tag"] []),
           (mkDiagnostics {[ Str "osm_tag=leisure=park" ]} ∅).
    split_and!; [| by_evaluation | done | by_evaluation | done..].
    by_evaluation.
Qed.

(** ** Lists that match no shape *)

Lemma should_keep_feature_no_match lookup d row g tag allowed :
  series_getattr row "geometry" = Ok (Geom g) →
  series_getitem row "osm_tag" = Ok (Str tag) →
  tag ≠ "unknown" →
  lookup !! tag = Some (GList allowed) →
  no_match (geom_type g) allowed →
  should_keep_feature lookup d row
  = Ok (false,
        mkDiagnostics (unknown_tags d)
          ({[fmt_mismatch (Str tag) (geom_type g)]} ∪ excluded_by_geometry d)).
Proof.
  intros Hg Htag Hunk Hl Hno. unfold should_keep_feature.
  rewrite Hg. simpl. rewrite Htag. simpl.
  rewrite bool_decide_eq_false_2 by (by intros [= ->]).
  rewrite Hl. simpl.
  apply matches_any_no_match in Hno. by rewrite Hno.
Qed.

Lemma no_match_nil shape : no_match shape [].
Proof. intros a Ha. by apply elem_of_nil in Ha. Qed.

Lemma no_match_other_names shape allowed :
  Forall (λ a, a ∉ ["point"; "area"; "line"]) allowed →
  no_match shape allowed.
Proof.
  intros Hall a Ha. rewrite Forall_forall in Hall.
  specialize (Hall a Ha). apply (get_None geometry_type_mapping) in Hall.
  rewrite Hall. apply not_elem_of_nil.
Qed.

(** C10. A feature whose tag is in the compiled lookup with a list as
    constraint, none of whose members names a shape class with the
    feature's shape, is rejected and recorded in [excluded_by_geometry],
    without an exception; so it is for the empty list and for a list of
    strings other than ["point"], ["area"] and ["line"]. *)
Theorem unmatched_list_is_geometry_mismatch cfg t d row g tag allowed :
  build_tables cfg = Ok t →
  series_getattr row "geometry" = Ok (Geom g) →
  series_getitem row "osm_tag" = Ok (Str tag) →
  geometry_lookup t !! tag = Some (GList allowed) →
  let rejected :=
    should_keep_feature (geometry_lookup t) d row
    = Ok (false,
          mkDiagnostics (unknown_tags d)
            ({[fmt_mismatch (Str tag) (geom_type g)]}
             ∪ excluded_by_geometry d)) in
  (no_match (geom_type g) allowed → rejected)
  ∧ (allowed = [] → rejected)
  ∧ (Forall (λ a, a ∉ ["point"; "area"; "line"]) allowed → rejected).
Proof.
  intros Hb Hg Htag Hl rejected.
  assert (tag ≠ "unknown") as Hunk.
  { destruct (lookup_declared cfg t tag _ Hb Hl) as (k & _ & v & _ & _ & -> & _).
    apply fmt_tag_not_unknown. }
  assert (no_match (geom_type g) allowed → rejected) as Hrej
    by (intros Hno; by eapply should_keep_feature_no_match).
  split_and!; [done| |].
  - intros ->. apply Hrej, no_match_nil.
  - intros Hall. by apply Hrej, no_match_other_names.
Qed.

Lemma unmatched_list_is_geometry_mismatch_witness :
  should_keep_feature (geometry_lookup Sample.park_polygon_tables)
    no_diagnostics Sample.park_as_point
  = Ok (false, mkDiagnostics ∅ {[ "leisure=park (geometry: Point)" ]}).
Proof.
  destruct (unmatched_list_is_geometry_mismatch Sample.park_polygon
              Sample.park_polygon_tables no_diagnostics Sample.park_as_point
              (mkGeometry "Point" "POINT (0 0)") "leisure=park" ["polygon"]
              eq_refl eq_refl eq_refl eq_refl) as (_ & _ & Hother).
  rewrite Hother.
  - by vm_compute.
  - repeat constructor. apply (bool_decide_unpack _). vm_compute. exact I.
Defined.

(** ** The order of the rows *)

Lemma Diagnostics_eq (d1 d2 : Diagnostics) :
  unknown_tags d1 = unknown_tags d2 →
  excluded_by_geometry d1 = excluded_by_geometry d2 →
  d1 = d2.
Proof. destruct d1, d2. simpl. by intros -> ->. Qed.

(** The two sets do not depend on the order in which the rows are
    visited. *)
Lemma diagnostics_of_Permutation t (rs rs' : list record) :
  rs ≡ₚ rs' → diagnostics_of t rs = diagnostics_of t rs'.
Proof.
  intros Hperm. unfold diagnostics_of. apply Diagnostics_eq.
  - apply set_eq. intros c. rewrite !unknown_tags_foldl.
    by setoid_rewrite Hperm.
  - apply set_eq. intros m. rewrite !excluded_by_geometry_foldl.
    by setoid_rewrite Hperm.
Qed.

(** The kept rows are rows of the classified frame, in its order. *)
Lemma filtered_sublist t df :
  records (filtered t df) `sublist_of` records df.
Proof. apply sublist_filter. Qed.

(** ** More on the two tables *)

(** A relation that every step of a loop keeps is kept by the loop. *)
Lemma for_each_preserves {S A} (R : S → S → Prop)
    (body : S → A → result S) xs s s' :
  (∀ s, R s s) → (∀ s1 s2 s3, R s1 s2 → R s2 s3 → R s1 s3) →
  (∀ s x s', x ∈ xs → body s x = Ok s' → R s s') →
  for_each body xs s = Ok s' → R s s'.
Proof.
  intros Hrefl Htrans. revert s.
  induction xs as [|x xs IH]; intros s Hstep; simpl.
  { intros [= ->]. apply Hrefl. }
  destruct (body s x) as [s1|e] eqn:Hb; simpl; [|done]. intros Hrest.
  apply (Htrans _ s1); [by eapply Hstep; [left|] |].
  apply IH; [|done]. intros ? ? ? ?. apply Hstep. by right.
Qed.

Global Instance values_extend_refl : Reflexive values_extend.
Proof. intros q k vs Hk. by exists vs. Qed.

Global Instance values_extend_trans : Transitive values_extend.
Proof.
  intros q1 q2 q3 H12 H23 k vs Hk.
  destruct (H12 k vs Hk) as (vs2 & Hk2 & Hp2).
  destruct (H23 k vs2 Hk2) as (vs3 & Hk3 & Hp3).
  exists vs3. split; [done | by etransitivity].
Qed.

Lemma for_each_values_NoDup {A} (body : tables → A → result tables) xs t t' :
  (∀ t x t', x ∈ xs → body t x = Ok t' →
     values_NoDup (osm_query_tags t) → values_NoDup (osm_query_tags t')) →
  for_each body xs t = Ok t' →
  values_NoDup (osm_query_tags t) → values_NoDup (osm_query_tags t').
Proof.
  apply (for_each_preserves
           (λ t1 t2, values_NoDup (osm_query_tags t1)
                     → values_NoDup (osm_query_tags t2))); [done|].
  intros ? ? ? H12 H23 ?. by apply H23, H12.
Qed.

Lemma for_each_values_extend {A} (body : tables → A → result tables) xs t t' :
  (∀ t x t', x ∈ xs → body t x = Ok t' →
     values_extend (osm_query_tags t) (osm_query_tags t')) →
  for_each body xs t = Ok t' →
  values_extend (osm_query_tags t) (osm_query_tags t').
Proof.
  apply (for_each_preserves
           (λ t1 t2, values_extend (osm_query_tags t1) (osm_query_tags t2)));
    [done|].
  intros ? ? ? H12 H23. by etransitivity.
Qed.

Lemma register_spec_values tag_key t spec t' :
  register_spec tag_key t spec = Ok t' →
  (values_NoDup (osm_query_tags t) → values_NoDup (osm_query_tags t'))
  ∧ values_extend (osm_query_tags t) (osm_query_tags t').
Proof.
  unfold register_spec.
  destruct (value spec) as [v|]; [|done]. simpl.
  destruct (geometry spec) as [g|]; [|done]. simpl.
  unfold getitem. destruct (get (osm_query_tags t) tag_key) as [vs|] eqn:Hvs;
    [|done]. simpl. intros [= <-]. simpl.
  case_bool_decide as Hv; [done|]. split.
  - intros Hnd k ws. rewrite get_setitem. case_decide as Hk.
    + intros [= <-]. apply NoDup_app. split_and!.
      * by eapply Hnd.
      * by intros x Hx ->%list_elem_of_singleton.
      * apply NoDup_singleton.
    + apply Hnd.
  - intros k ws Hk. rewrite get_setitem. case_decide as Hkk.
    + subst k. rewrite Hvs in Hk. injection Hk as <-.
      eexists. split; [done|]. by apply prefix_app_r.
    + by exists ws.
Qed.

Lemma register_key_values t item t' :
  register_key t item = Ok t' →
  (values_NoDup (osm_query_tags t) → values_NoDup (osm_query_tags t'))
  ∧ values_extend (osm_query_tags t) (osm_query_tags t').
Proof.
  destruct item as [tag_key specs]. unfold register_key.
  set (q0 := if contains (osm_query_tags t) tag_key then osm_query_tags t
             else setitem (osm_query_tags t) tag_key []).
  intros Hloop.
  assert ((values_NoDup (osm_query_tags t) → values_NoDup q0)
          ∧ values_extend (osm_query_tags t) q0) as [Hnd0 Hext0].
  { unfold q0, contains. case_bool_decide as Hin; [done|].
    apply get_None in Hin. split.
    - intros Hnd k ws. rewrite get_setitem. case_decide.
      + intros [= <-]. apply NoDup_nil_2.
      + apply Hnd.
    - intros k ws Hk. rewrite get_setitem. case_decide; [|by exists ws].
      subst k. by rewrite Hin in Hk. }
  split.
  - intros Hnd.
    apply (for_each_values_NoDup _ _ _ _) in Hloop; [done| |by apply Hnd0].
    intros ? ? ? _ H. by apply register_spec_values in H as [? _].
  - transitivity q0; [done|].
    apply (for_each_values_extend _ _ _ _) in Hloop; [done|].
    intros ? ? ? _ H. by apply register_spec_values in H as [_ ?].
Qed.

Lemma register_keys_values its t t' :
  for_each register_key its t = Ok t' →
  (values_NoDup (osm_query_tags t) → values_NoDup (osm_query_tags t'))
  ∧ values_extend (osm_query_tags t) (osm_query_tags t').
Proof.
  intros Hloop. split.
  - apply (for_each_values_NoDup register_key its); [|done].
    intros ? ? ? _ H. by apply register_key_values in H as [? _].
  - apply (for_each_values_extend register_key its); [|done].
    intros ? ? ? _ H. by apply register_key_values in H as [_ ?].
Qed.

Lemma build_tables_items cfg :
  build_tables cfg = for_each register_key (items cfg) (Tables [] ∅).
Proof.
  unfold build_tables, register_category.
  by rewrite (for_each_nested register_key (λ c, default [] (tags c))).
Qed.

(** X1. In the compiled query dictionary no tag key occurs twice and no
    value occurs twice under a key, however often the configuration
    declares them. *)
Theorem query_tags_without_duplicates cfg t :
  build_tables cfg = Ok t →
  NoDup (keys (osm_query_tags t))
  ∧ ∀ k vs, get (osm_query_tags t) k = Some vs → NoDup vs.
Proof.
  intros Hb. split.
  - pose proof (build_tables_spec cfg) as H. rewrite Hb in H.
    destruct H as (_ & -> & _). apply key_order_spec.
  - rewrite build_tables_items in Hb.
    apply register_keys_values in Hb as [Hnd _]. by apply Hnd.
Qed.

Lemma query_tags_without_duplicates_witness :
  ∃ t, build_tables (Sample.park_twice ++ Sample.park_twice) = Ok t
       ∧ osm_query_tags t = [("park", ["yes"])]
       ∧ NoDup (keys (osm_query_tags t)).
Proof.
  eexists. split_and!; [reflexivity..|].
  by apply (query_tags_without_duplicates
              (Sample.park_twice ++ Sample.park_twice) _ eq_refl).
Defined.

Lemma write_all_is_Some m es tag :
  tag ∈ es.*1 → is_Some (write_all m es !! tag).
Proof.
  revert m. induction es as [|[tag' g] es IH]; intros m Hin.
  { by apply elem_of_nil in Hin. }
  simpl. destruct (decide (tag ∈ es.*1)) as [Hlater|Hlater]; [by apply IH|].
  change (foldl _ ?m0 es) with (write_all m0 es).
  rewrite write_all_lookup_ne by done.
  apply elem_of_cons in Hin as [->|?]; [|done].
  simpl. rewrite lookup_insert_eq. eauto.
Qed.

(** X2. The two tables agree: a string is a key of the geometry lookup
    exactly when it is ["{key}={value}"] for a value that the query
    dictionary lists under that key. *)
Theorem lookup_keys_are_query_pairs cfg t tag :
  build_tables cfg = Ok t →
  is_Some (geometry_lookup t !! tag)
  ↔ ∃ k v, v ∈ default [] (get (osm_query_tags t) k) ∧ tag = fmt_tag k v.
Proof.
  intros Hb. split.
  - intros [allowed Hl].
    destruct (lookup_declared cfg t tag allowed Hb Hl)
      as (k & _ & v & _ & _ & -> & Hin & _). eauto.
  - intros (k & v & Hin & ->).
    pose proof (build_tables_spec cfg) as H. rewrite Hb in H.
    destruct H as (Hall & _ & -> & Hvals).
    apply Hvals in Hin as (s & Hks & Hv).
    rewrite Forall_forall in Hall. destruct (Hall _ Hks) as [_ [g Hg]].
    apply write_all_is_Some, list_elem_of_fmap.
    exists (fmt_tag k v, g). split; [done|].
    apply list_elem_of_omap. exists (k, s). split; [done|].
    unfold entry. simpl in *. by rewrite Hv, Hg.
Qed.

Lemma lookup_keys_are_query_pairs_witness :
  is_Some (geometry_lookup Sample.park_tables !! "leisure=park")
  ↔ ∃ k v, v ∈ default [] (get (osm_query_tags Sample.park_tables) k)
           ∧ "leisure=park" = fmt_tag k v.
Proof.
  exact (lookup_keys_are_query_pairs Sample.park_area Sample.park_tables
           "leisure=park" eq_refl).
Defined.

Lemma first_seen_prefix seen ks : seen `prefix_of` first_seen seen ks.
Proof.
  revert seen. induction ks as [|k ks IH]; intros seen; [done|]. simpl.
  case_bool_decide; [apply IH|].
  etransitivity; [|apply IH]. by apply prefix_app_r.
Qed.

(** X3. Categories appended to a configuration extend its tables and
    never rearrange them: the query keys of the first part stay in front
    in their order, each of its value lists begins the list of the same
    key, and a tag that the appended part does not declare keeps its
    constraint.  The appended part fails only for a specification of its
    own without one of its two keys, and a failure of the first part is
    the failure of the whole. *)
Theorem build_tables_app cfg1 cfg2 :
  match build_tables cfg1 with
  | Raise e => build_tables (cfg1 ++ cfg2) = Raise e
  | Ok t1 =>
      match build_tables (cfg1 ++ cfg2) with
      | Ok t =>
          keys (osm_query_tags t1) `prefix_of` keys (osm_query_tags t)
          ∧ values_extend (osm_query_tags t1) (osm_query_tags t)
          ∧ ∀ tag, tag ∉ (entries cfg2).*1 →
                   geometry_lookup t !! tag = geometry_lookup t1 !! tag
      | Raise e =>
          Exists (λ d, value d.2 = None ∨ geometry d.2 = None)
            (declarations cfg2)
          ∧ missing_key e
      end
  end.
Proof.
  unfold build_tables at 2 3. rewrite for_each_app.
  fold (build_tables cfg1). destruct (build_tables cfg1) as [t1|e]; [|done].
  simpl. unfold register_category.
  rewrite (for_each_nested register_key (λ c, default [] (tags c))).
  fold (items cfg2).
  pose proof (register_keys_spec (items cfg2) t1) as H.
  destruct (for_each register_key (items cfg2) t1) as [t|e] eqn:Hloop.
  - destruct H as (_ & Hkeys & Hlook & _). split_and!.
    + rewrite Hkeys. apply first_seen_prefix.
    + by apply register_keys_values in Hloop as [_ ?].
    + intros tag Hnot. rewrite Hlook. by apply write_all_lookup_ne.
  - destruct H as [Hex He]. split; [|done].
    eapply Exists_impl; [done|]. intros d. apply not_complete.
Qed.

(** ** More on the filter *)

(** What each decision of the validator says about the tag and the
    lookup, in the terms of the code. *)
Lemma accept_cases c shape lookup :
  match accept c shape lookup with
  | Keep =>
      ∃ tag allowed, c = Str tag ∧ tag ≠ "unknown"
        ∧ lookup !! tag = Some allowed
        ∧ (allowed = GStr "any" ∨ matches_any shape (normalize allowed) = true)
  | Reject unrecognizedTag =>
      c = Str "unknown" ∨ lookup_cell lookup c = None
  | Reject geometryMismatch =>
      ∃ tag allowed, c = Str tag ∧ tag ≠ "unknown"
        ∧ lookup !! tag = Some allowed
        ∧ allowed ≠ GStr "any"
        ∧ matches_any shape (normalize allowed) = false
  end.
Proof.
  unfold accept. case_decide as Hunk; [by left|].
  destruct (lookup_cell lookup c) as [allowed|] eqn:Hl; [|by right].
  destruct c as [| |tag|g]; simpl in Hl; try done.
  assert (tag ≠ "unknown") as Hne by (by intros ->).
  case_decide as Hany; [by exists tag, allowed; split_and!; eauto|].
  change (normalize allowed) with (allowed_set allowed).
  destruct (matches_any shape (allowed_set allowed)) eqn:Hm.
  - apply matches_any_kind in Hm as Hk. destruct Hk as (kind & -> & Hin).
    rewrite decide_True by done. exists tag, allowed. split_and!; eauto.
  - assert (∀ kind, shape_kind shape = Some kind →
                    kind_name kind ∉ allowed_set allowed) as Hno.
    { intros kind Hk Hin. apply not_true_iff_false in Hm.
      apply Hm, matches_any_kind. eauto. }
    destruct (shape_kind shape) as [kind|].
    + rewrite decide_False by (by apply Hno).
      by exists tag, allowed.
    + by exists tag, allowed.
Qed.

Lemma matches_any_true shape allowed :
  matches_any shape allowed = true
  ↔ ∃ a, a ∈ allowed ∧ shape ∈ default [] (get geometry_type_mapping a).
Proof.
  unfold matches_any. rewrite existsb_exists.
  split; intros (a & Hin & Hm); exists a.
  - split; [by apply list_elem_of_In | by apply bool_decide_eq_true in Hm].
  - split; [by apply list_elem_of_In | by apply bool_decide_eq_true].
Qed.

(** The decision on a tagged record of a frame of features. *)
Lemma decision_of_tagged t cols (r : record) g :
  r !! "geometry" = Some (Geom g) →
  decision_of t (tagged t cols r)
  = accept (Str (tag_of t cols r)) (geom_type g) (geometry_lookup t).
Proof.
  intros Hg. unfold decision_of, tag_cell, shape_of, tagged.
  by rewrite lookup_insert_eq, lookup_insert_ne, Hg.
Qed.

Lemma tag_of_get_osm_tag t cols r :
  get_osm_tag (osm_query_tags t) (mkSeries cols r) = Ok (tag_of t cols r).
Proof.
  unfold tag_of.
  by destruct (get_osm_tag_returns (osm_query_tags t) (mkSeries cols r))
    as [tag ->].
Qed.

Lemma output_record_of_tagged has_name t cols (r : record) :
  output_record has_name (tagged t cols r) !! "osm_tag"
  = Some (Str (tag_of t cols r))
  ∧ output_record has_name (tagged t cols r) !! "geometry" = r !! "geometry"
  ∧ output_record has_name (tagged t cols r) !! "name"
    = if has_name then r !! "name" else Some PyNone.
Proof.
  rewrite !lookup_output_record.
  rewrite !decide_True by (apply (bool_decide_unpack _); by vm_compute).
  unfold tagged. destruct has_name; split_and!.
  - by rewrite lookup_insert_eq.
  - by rewrite lookup_insert_ne.
  - by rewrite lookup_insert_ne.
  - by rewrite lookup_insert_ne, lookup_insert_eq.
  - by rewrite !lookup_insert_ne.
  - by rewrite lookup_insert_eq.
Qed.

(** X4. Every feature in the output has a tag that is in the geometry
    lookup, and either the constraint of the tag is ["any"] or one of the
    allowed names maps to a shape class that holds the feature's
    [geom_type]. *)
Theorem kept_features_pass_the_gate cfg t df :
  build_tables cfg = Ok t → geo_frame df →
  ∃ out d,
    extract_selected_tags_from_osm_complete cfg df = Ok (out, d)
    ∧ ∀ o : record, o ∈ records out →
        ∃ tag g allowed,
          o !! "osm_tag" = Some (Str tag)
          ∧ o !! "geometry" = Some (Geom g)
          ∧ tag ≠ "unknown"
          ∧ geometry_lookup t !! tag = Some allowed
          ∧ (allowed = GStr "any"
             ∨ ∃ a, a ∈ normalize allowed
                    ∧ geom_type g
                      ∈ default [] (get geometry_type_mapping a)).
Proof.
  intros Hb Hgeo. eexists _, _. split; [by apply extract_spec|].
  simpl. intros o Ho.
  apply list_elem_of_fmap in Ho as (r & -> & Hr).
  apply list_elem_of_filter in Hr as [Hkeep Hr].
  apply list_elem_of_fmap in Hr as (r0 & -> & Hr0).
  destruct Hgeo as [_ Hrows]. rewrite Forall_forall in Hrows.
  destruct (Hrows r0 Hr0) as [g Hg].
  rewrite (decision_of_tagged _ _ _ g Hg) in Hkeep.
  pose proof (accept_cases (Str (tag_of t (columns df) r0)) (geom_type g)
                (geometry_lookup t)) as Hcase.
  destruct (accept _ _ _); [|done].
  destruct Hcase as (tag & allowed & [= <-] & Hne & Hl & Hok).
  destruct (output_record_of_tagged (bool_decide ("name" ∈ columns df))
              t (columns df) r0) as (Htag & Hgeom & _).
  exists (tag_of t (columns df) r0), g, allowed.
  split_and!; [done | by rewrite Hgeom | done..|].
  destruct Hok as [?|Hm]; [by left | right]. by apply matches_any_true.
Qed.

Lemma kept_features_pass_the_gate_witness :
  ∃ out d,
    extract_selected_tags_from_osm_complete Sample.park_area Sample.frame
    = Ok (out, d)
    ∧ ∀ o : record, o ∈ records out →
        ∃ tag allowed, o !! "osm_tag" = Some (Str tag)
                       ∧ geometry_lookup Sample.park_tables !! tag
                         = Some allowed.
Proof.
  destruct (kept_features_pass_the_gate Sample.park_area Sample.park_tables
              Sample.frame eq_refl geo_frame_sample) as (out & d & Hout & Hall).
  exists out, d. split; [done|]. intros o Ho.
  destruct (Hall o Ho) as (tag & g & allowed & ? & _ & _ & ? & _). eauto.
Defined.

Lemma filter_fmap_comm {A B} (f : A → B) (P : B → Prop)
    `{∀ y, Decision (P y)} (l : list A) :
  filter P (f <$> l) = f <$> filter (λ x, P (f x)) l.
Proof.
  induction l as [|x l IH]; [done|]. csimpl. rewrite !filter_cons.
  case_decide; csimpl; by rewrite IH.
Qed.

Lemma length_filter_all {A} (P : A → Prop) `{∀ x, Decision (P x)} (l : list A) :
  length (filter P l) = length l ↔ Forall P l.
Proof.
  induction l as [|x l IH]; [by split; [constructor|]|].
  rewrite filter_cons. case_decide as Hx; simpl.
  - rewrite Forall_cons, <- IH. split; [by intros [= ?] | by intros [_ ->]].
  - pose proof (length_filter P l). split; [lia | by intros [? _]%Forall_cons].
Qed.

(** X5. The first query key that a feature has decides alone: when its
    tag is not in the lookup the feature is rejected as unknown, whatever
    the later query keys and their values on the feature are. *)
Theorem first_key_decides_alone t df (r : record) earlier tag_key later :
  geo_frame df →
  r ∈ records df →
  keys (osm_query_tags t) = earlier ++ tag_key :: later →
  Forall (λ k, ¬ has_value (mkSeries (columns df) r) k) earlier →
  has_value (mkSeries (columns df) r) tag_key →
  geometry_lookup t
    !! fmt_tag tag_key (str (cell_at (mkSeries (columns df) r) tag_key))
  = None →
  ∃ kept d,
    classify_and_filter t df = Ok (kept, d)
    ∧ ((<["osm_tag" :=
            Str (fmt_tag tag_key
                   (str (cell_at (mkSeries (columns df) r) tag_key)))]> r)
       ∉ records kept)
    ∧ Str (fmt_tag tag_key (str (cell_at (mkSeries (columns df) r) tag_key)))
      ∈ unknown_tags d.
Proof.
  intros Hgeo Hr Hkeys Hearlier Hkey Hnone. eexists _, _.
  split; [by apply classify_and_filter_spec|].
  set (tag := fmt_tag tag_key _) in *.
  assert (tag_of t (columns df) r = tag) as Htag.
  { unfold tag_of, get_osm_tag. rewrite Hkeys.
    by rewrite get_osm_tag_from_first. }
  destruct Hgeo as [_ Hrows]. rewrite Forall_forall in Hrows.
  destruct (Hrows r Hr) as [g Hg].
  assert (decision_of t (tagged t (columns df) r) = Reject unrecognizedTag)
    as Hdec.
  { rewrite (decision_of_tagged _ _ _ g Hg), Htag. unfold accept.
    case_decide; [done|]. simpl. by rewrite Hnone. }
  assert (tagged t (columns df) r = <["osm_tag" := Str tag]> r) as Heq
    by (unfold tagged; by rewrite Htag).
  rewrite <- Heq. simpl. split.
  - rewrite list_elem_of_filter, Hdec. by intros [? _].
  - apply unknown_tags_foldl. right. exists (tagged t (columns df) r).
    split_and!; [by apply list_elem_of_fmap_2 | done |].
    unfold tag_cell, tagged. by rewrite lookup_insert_eq, Htag.
Qed.

Lemma first_key_decides_alone_witness :
  ∃ kept d,
    classify_and_filter Sample.cycleway_tables Sample.road_frame
    = Ok (kept, d)
    ∧ ((<["osm_tag" := Str "highway=residential"]> Sample.bench_on_road)
       ∉ records kept)
    ∧ Str "highway=residential" ∈ unknown_tags d
    ∧ has_value (mkSeries (columns Sample.road_frame) Sample.bench_on_road)
        "amenity"
    ∧ geometry_lookup Sample.cycleway_tables !! "amenity=bench"
      = Some (GStr "point").
Proof.
  destruct (first_key_decides_alone Sample.cycleway_tables Sample.road_frame
              Sample.bench_on_road [] "highway" ["amenity"])
    as (kept & d & Hrun & Hnot & Hin).
  - split; [by_evaluation|]. repeat constructor. eexists. reflexivity.
  - by_evaluation.
  - reflexivity.
  - constructor.
  - split; [by_evaluation | reflexivity].
  - reflexivity.
  - exists kept, d. split_and!; [done..| |reflexivity].
    split; [by_evaluation | reflexivity].
Defined.

(** X6. The output is, row for row and in the order of the feature
    frame, a selection of its features: each output record has the
    geometry of its feature, the tag [get_osm_tag] gives the feature,
    and the feature's name when the frame has a [name] column ([None]
    otherwise).  No feature is added, repeated or moved. *)
Theorem output_is_a_selection_in_order cfg t df :
  build_tables cfg = Ok t → geo_frame df →
  ∃ out d selected,
    extract_selected_tags_from_osm_complete cfg df = Ok (out, d)
    ∧ selected `sublist_of` records df
    ∧ Forall2
        (λ (r o : record),
           o !! "geometry" = r !! "geometry"
           ∧ (∃ tag, get_osm_tag (osm_query_tags t) (mkSeries (columns df) r)
                     = Ok tag
                     ∧ o !! "osm_tag" = Some (Str tag))
           ∧ o !! "name" = (if decide ("name" ∈ columns df) then r !! "name"
                            else Some PyNone))
        selected (records out).
Proof.
  intros Hb Hgeo.
  eexists _, _,
    (filter (λ r, keeps (decision_of t (tagged t (columns df) r)) = true)
       (records df)).
  split; [by apply extract_spec|]. split; [apply sublist_filter|].
  simpl. rewrite filter_fmap_comm, <- list_fmap_compose.
  apply Forall2_fmap_r, Forall_Forall2_diag, Forall_forall. intros r _. simpl.
  destruct (output_record_of_tagged (bool_decide ("name" ∈ columns df))
              t (columns df) r) as (Htag & Hg & Hname).
  split_and!; [done| |].
  - exists (tag_of t (columns df) r). split; [apply tag_of_get_osm_tag | done].
  - rewrite Hname. by case_bool_decide; case_decide.
Qed.

Lemma output_is_a_selection_in_order_witness :
  ∃ out d selected,
    extract_selected_tags_from_osm_complete Sample.park_area Sample.frame
    = Ok (out, d)
    ∧ selected `sublist_of` records Sample.frame
    ∧ length selected = length (records out).
Proof.
  destruct (output_is_a_selection_in_order Sample.park_area Sample.park_tables
              Sample.frame) as (out & d & selected & Hrun & Hsub & Hall).
  - by_evaluation.
  - exact geo_frame_sample.
  - exists out, d, selected. split_and!; [done..|].
    by eapply Forall2_length.
Defined.

(** X7. Nothing is reported that did not happen.  Every member of
    [unknown_tags] is the tag of a feature of the frame, and that tag is
    ["unknown"] or is not in the lookup; every member of
    [excluded_by_geometry] is ["{tag} (geometry: {geom_type})"] for a
    feature of the frame whose tag is in the lookup with a constraint
    other than ["any"] that none of its names matches. *)
Theorem diagnostics_come_from_rejected_features t df :
  geo_frame df →
  ∃ kept d,
    classify_and_filter t df = Ok (kept, d)
    ∧ (∀ c, c ∈ unknown_tags d →
         ∃ (r : record) tag,
           r ∈ records df
           ∧ get_osm_tag (osm_query_tags t) (mkSeries (columns df) r) = Ok tag
           ∧ c = Str tag
           ∧ (tag = "unknown" ∨ geometry_lookup t !! tag = None))
    ∧ (∀ m, m ∈ excluded_by_geometry d →
         ∃ (r : record) tag g allowed,
           r ∈ records df
           ∧ get_osm_tag (osm_query_tags t) (mkSeries (columns df) r) = Ok tag
           ∧ r !! "geometry" = Some (Geom g)
           ∧ m = fmt_mismatch (Str tag) (geom_type g)
           ∧ geometry_lookup t !! tag = Some allowed
           ∧ allowed ≠ GStr "any"
           ∧ no_match (geom_type g) (normalize allowed)).
Proof.
  intros Hgeo. eexists _, _. split; [by apply classify_and_filter_spec|].
  destruct Hgeo as [_ Hrows]. rewrite Forall_forall in Hrows.
  unfold diagnostics_of. simpl. split.
  - intros c Hc. apply unknown_tags_foldl in Hc as [Hc|(r' & Hr' & Hdec & <-)];
      [by apply not_elem_of_empty in Hc|].
    apply list_elem_of_fmap in Hr' as (r & -> & Hr).
    destruct (Hrows r Hr) as [g Hg].
    rewrite (decision_of_tagged _ _ _ g Hg) in Hdec.
    pose proof (accept_cases (Str (tag_of t (columns df) r)) (geom_type g)
                  (geometry_lookup t)) as Hcase.
    rewrite Hdec in Hcase.
    exists r, (tag_of t (columns df) r).
    split_and!; [done | apply tag_of_get_osm_tag | |].
    + unfold tag_cell, tagged. by rewrite lookup_insert_eq.
    + destruct Hcase as [[= ->]|?]; [by left | by right].
  - intros m Hm.
    apply excluded_by_geometry_foldl in Hm as [Hm|(r' & Hr' & Hdec & <-)];
      [by apply not_elem_of_empty in Hm|].
    apply list_elem_of_fmap in Hr' as (r & -> & Hr).
    destruct (Hrows r Hr) as [g Hg].
    assert (shape_of (tagged t (columns df) r) = geom_type g) as ->.
    { unfold shape_of, tagged. by rewrite lookup_insert_ne, Hg. }
    assert (tag_cell (tagged t (columns df) r)
            = Str (tag_of t (columns df) r)) as ->.
    { unfold tag_cell, tagged. by rewrite lookup_insert_eq. }
    rewrite (decision_of_tagged _ _ _ g Hg) in Hdec.
    pose proof (accept_cases (Str (tag_of t (columns df) r)) (geom_type g)
                  (geometry_lookup t)) as Hcase.
    rewrite Hdec in Hcase.
    destruct Hcase as (tag & allowed & [= <-] & _ & Hl & Hany & Hm).
    exists r, (tag_of t (columns df) r), g, allowed.
    split_and!; [done | apply tag_of_get_osm_tag | done..|].
    by apply matches_any_no_match.
Qed.

Lemma diagnostics_come_from_rejected_features_witness :
  ∃ kept d,
    classify_and_filter Sample.park_tables Sample.frame = Ok (kept, d)
    ∧ ∀ c, c ∈ unknown_tags d →
        ∃ tag, c = Str tag
               ∧ (tag = "unknown"
                  ∨ geometry_lookup Sample.park_tables !! tag = None).
Proof.
  destruct (diagnostics_come_from_rejected_features Sample.park_tables
              Sample.frame geo_frame_sample) as (kept & d & Hrun & Hunk & _).
  exists kept, d. split; [done|]. intros c Hc.
  destruct (Hunk c Hc) as (_ & tag & _ & _ & ? & ?). eauto.
Defined.

Lemma record_diagnostics_Keep t d r :
  decision_of t r = Keep → record_diagnostics t d r = d.
Proof. unfold record_diagnostics. by intros ->. Qed.

Lemma foldl_record_diagnostics_all_kept t (rs : list record) d :
  Forall (λ r, keeps (decision_of t r) = true) rs →
  foldl (record_diagnostics t) d rs = d.
Proof.
  revert d. induction rs as [|r rs IH]; intros d Hall; [done|].
  apply Forall_cons in Hall as [Hr Hall]. simpl.
  rewrite record_diagnostics_Keep; [by apply IH|].
  by destruct (decision_of t r).
Qed.

(** X8. The two sets stay empty exactly when every feature of the frame
    is kept: a run that reports nothing has excluded nothing, and a run
    that excluded a feature has reported it. *)
Theorem nothing_reported_iff_all_kept t df :
  geo_frame df →
  ∃ kept d,
    classify_and_filter t df = Ok (kept, d)
    ∧ (unknown_tags d = ∅ ∧ excluded_by_geometry d = ∅
       ↔ length (records kept) = length (records df)).
Proof.
  intros Hgeo. eexists _, _. split; [by apply classify_and_filter_spec|].
  simpl.
  assert (length (records df)
          = length (tagged t (columns df) <$> records df)) as ->
    by (by rewrite length_fmap).
  rewrite length_filter_all. split.
  - intros [Hunk Hexc]. apply Forall_forall. intros r Hr.
    destruct (decision_of t r) as [|[]] eqn:Hdec; [done|exfalso..].
    + assert (tag_cell r ∈ unknown_tags
                (diagnostics_of t (tagged t (columns df) <$> records df)))
        as Hin by (apply unknown_tags_foldl; right; eauto).
      rewrite Hunk in Hin. by apply not_elem_of_empty in Hin.
    + assert (fmt_mismatch (tag_cell r) (shape_of r) ∈ excluded_by_geometry
                (diagnostics_of t (tagged t (columns df) <$> records df)))
        as Hin by (apply excluded_by_geometry_foldl; right; eauto).
      rewrite Hexc in Hin. by apply not_elem_of_empty in Hin.
  - intros Hall. unfold diagnostics_of.
    by rewrite foldl_record_diagnostics_all_kept.
Qed.

Lemma nothing_reported_iff_all_kept_witness :
  ∃ kept d,
    classify_and_filter Sample.park_tables Sample.frame = Ok (kept, d)
    ∧ length (records kept) ≠ length (records Sample.frame)
    ∧ ¬ (unknown_tags d = ∅ ∧ excluded_by_geometry d = ∅).
Proof.
  destruct (nothing_reported_iff_all_kept Sample.park_tables Sample.frame
              geo_frame_sample) as (kept & d & Hrun & Hiff).
  exists kept, d. split; [done|].
  assert (length (records kept) ≠ length (records Sample.frame)) as Hne.
  { assert (classify_and_filter Sample.park_tables Sample.frame
            = Ok (mkFrame ["geometry"; "leisure"; "osm_tag"]
                    [ {[ "geometry" := Sample.polygon;
                         "leisure" := Str "park";
                         "osm_tag" := Str "leisure=park" ]} ],
                  mkDiagnostics {[ Str "leisure=garden"; Str "unknown" ]}
                    {[ "leisure=park (geometry: Point)" ]})) as Hval
      by by_evaluation.
    rewrite Hval in Hrun. injection Hrun as <- _. simpl. lia. }
  split; [done|]. intros H. by apply Hne, Hiff.
Defined.

(** ** Frames the function cannot process *)

Lemma apply_rows_Ok_inv {S B} (f : S → Series → result (B * S)) cols rs s x :
  apply_rows f cols rs s = Ok x →
  ∀ r, r ∈ rs → ∃ s1 y, f s1 (mkSeries cols r) = Ok y.
Proof.
  revert s x. induction rs as [|r0 rs IH]; intros s x Hrun r Hr.
  { by apply elem_of_nil in Hr. }
  simpl in Hrun. destruct (f s (mkSeries cols r0)) as [[b s1]|e] eqn:Hf;
    [|done]. simpl in Hrun.
  destruct (apply_rows f cols rs s1) as [[bs s2]|e] eqn:Hrest; [|done].
  apply elem_of_cons in Hr as [->|Hr]; [eauto|]. by eapply IH.
Qed.

Lemma should_keep_feature_Ok_inv lookup d row x :
  should_keep_feature lookup d row = Ok x →
  "geometry" ∈ index row ∧ ∃ g, data row !! "geometry" = Some (Geom g).
Proof.
  unfold should_keep_feature, series_getattr.
  case_bool_decide as Hin; [|done]. simpl.
  destruct (data row !! "geometry") as [[| | |g]|]; simpl; try done.
  eauto.
Qed.

Lemma select_columns_Ok_inv df names out :
  select_columns df names = Ok out → ∀ n, n ∈ names → n ∈ columns df.
Proof.
  unfold select_columns.
  destruct (filter (λ n, n ∉ columns df) names) as [|missing rest] eqn:Hf;
    [|done].
  intros _ n Hn. destruct (decide (n ∈ columns df)) as [|Hnot]; [done|].
  assert (n ∈ filter (λ n, n ∉ columns df) names) as Hin
    by by apply list_elem_of_filter.
  rewrite Hf in Hin. by apply elem_of_nil in Hin.
Qed.

Lemma select_output_Ok_inv df out :
  select_output df = Ok out → "geometry" ∈ columns df.
Proof.
  unfold select_output. intros Hsel.
  apply select_columns_Ok_inv with (n := "geometry") in Hsel;
    [|by_evaluation].
  case_bool_decide; [done|]. simpl in Hsel.
  rewrite bool_decide_eq_false_2 in Hsel by done.
  by apply elem_of_app in Hsel as [?|[=]%list_elem_of_singleton].
Qed.

(** X9. With tables that compiled, the function returns exactly on the
    frames that have a [geometry] column with a geometry in every row: a
    single feature without a geometry makes the whole run raise, it is
    not set aside like a feature with an unknown tag. *)
Theorem extract_returns_iff_geo_frame cfg t df :
  build_tables cfg = Ok t →
  geo_frame df
  ↔ ∃ out d, extract_selected_tags_from_osm_complete cfg df = Ok (out, d).
Proof.
  intros Hb. split.
  { intros Hgeo. eexists _, _. by apply extract_spec. }
  intros (out & d & Hrun).
  unfold extract_selected_tags_from_osm_complete in Hrun.
  rewrite Hb in Hrun. simpl in Hrun.
  unfold classify_and_filter in Hrun. rewrite add_osm_tag_spec in Hrun.
  simpl in Hrun. unfold filter_features, apply in Hrun.
  destruct (apply_rows (should_keep_feature (geometry_lookup t))
              (columns (classified t df)) (records (classified t df))
              no_diagnostics) as [[mask d']|e] eqn:Hrows; [|done].
  simpl in Hrun.
  destruct (select_output (boolean_mask (classified t df) mask))
    as [out'|e] eqn:Hsel; [|done].
  apply select_output_Ok_inv in Hsel. simpl in Hsel. split.
  - destruct (bool_decide ("osm_tag" ∈ columns df)); [done|].
    by apply elem_of_app in Hsel as [?|[=]%list_elem_of_singleton].
  - apply Forall_forall. intros r Hr.
    destruct (apply_rows_Ok_inv _ _ _ _ _ Hrows (tagged t (columns df) r))
      as (d1 & y & Hkeep); [by apply list_elem_of_fmap_2|].
    apply should_keep_feature_Ok_inv in Hkeep as [_ [g Hg]].
    exists g. simpl in Hg. unfold tagged in Hg.
    by rewrite lookup_insert_ne in Hg.
Qed.

Lemma extract_returns_iff_geo_frame_witness :
  (geo_frame Sample.frame
   ↔ ∃ out d,
       extract_selected_tags_from_osm_complete Sample.park_area Sample.frame
       = Ok (out, d))
  ∧ extract_selected_tags_from_osm_complete Sample.park_area
      (mkFrame ["geometry"; "leisure"] [ {[ "leisure" := Str "park" ]} ])
    = Raise (AttributeError "geom_type").
Proof.
  split; [|by_evaluation].
  apply (extract_returns_iff_geo_frame Sample.park_area Sample.park_tables).
  by_evaluation.
Defined.

(** ** The category mapping of the report *)

Lemma collect_tags_spec tag_key specs acc :
  match for_each (collect_tag tag_key) specs acc with
  | Ok tag_list =>
      Forall (λ s, is_Some (value s)) specs
      ∧ tag_list = first_seen acc (omap declared_tag (pair tag_key <$> specs))
  | Raise e => Exists (λ s, value s = None) specs ∧ e = KeyError "value"
  end.
Proof.
  revert acc. induction specs as [|spec specs IH]; intros acc; [done|].
  simpl. unfold collect_tag at 1, declared_tag at 1. simpl.
  destruct (value spec) as [v|] eqn:Hv; simpl; [|by split; [left|]].
  specialize (IH (if bool_decide (fmt_tag tag_key v ∈ acc) then acc
                  else acc ++ [fmt_tag tag_key v])).
  destruct (for_each _ specs _) as [l|e].
  - destruct IH as [Hall ->]. split; [|done].
    constructor; [by rewrite Hv | done].
  - destruct IH as [Hex ->]. split; [by right | done].
Qed.

Lemma first_seen_app seen ks1 ks2 :
  first_seen seen (ks1 ++ ks2) = first_seen (first_seen seen ks1) ks2.
Proof. apply foldl_app. Qed.

Lemma collect_keys_spec its acc :
  match for_each collect_key its acc with
  | Ok tag_list =>
      Forall (λ d, is_Some (value d.2)) (item_declarations its)
      ∧ tag_list = first_seen acc (omap declared_tag (item_declarations its))
  | Raise e =>
      Exists (λ d, value d.2 = None) (item_declarations its)
      ∧ e = KeyError "value"
  end.
Proof.
  revert acc. induction its as [|[tag_key specs] its IH]; intros acc; [done|].
  unfold item_declarations in *. rewrite bind_cons. simpl.
  unfold collect_key at 1. simpl.
  pose proof (collect_tags_spec tag_key specs acc) as H1.
  destruct (for_each (collect_tag tag_key) specs acc) as [l1|e]; simpl.
  - destruct H1 as [Hall1 ->]. specialize (IH (first_seen acc
      (omap declared_tag (pair tag_key <$> specs)))).
    destruct (for_each collect_key its _) as [l2|e].
    + destruct IH as [Hall2 ->]. split.
      * apply Forall_app. split; [by apply Forall_fmap | done].
      * by rewrite omap_app, first_seen_app.
    + destruct IH as [Hex ->]. split; [|done]. apply Exists_app. by right.
  - destruct H1 as [Hex ->]. split; [|done].
    apply Exists_app. left. by apply Exists_fmap.
Qed.

Lemma declarations_cons c cfg :
  declarations (c :: cfg)
  = item_declarations (default [] (tags c)) ++ declarations cfg.
Proof.
  unfold declarations, items, item_declarations.
  by rewrite bind_cons, bind_app.
Qed.

(** The mapping that the loops of lines 47-60 build when no value is
    missing. *)
Lemma build_category_mapping_from cfg m :
  match for_each map_category cfg m with
  | Ok m' =>
      Forall (λ d, is_Some (value d.2)) (declarations cfg)
      ∧ m' = foldl (λ m c, setitem m (category_name c) (category_tag_list c))
               m cfg
  | Raise e =>
      Exists (λ d, value d.2 = None) (declarations cfg) ∧ e = KeyError "value"
  end.
Proof.
  revert m. induction cfg as [|c cfg IH]; intros m; [done|].
  rewrite declarations_cons. simpl. unfold map_category at 1.
  pose proof (collect_keys_spec (default [] (tags c)) []) as H1.
  destruct (for_each collect_key (default [] (tags c)) []) as [l|e]; simpl.
  - destruct H1 as [Hall1 ->].
    fold (category_tag_list c). fold (category_name c).
    specialize (IH (setitem m (category_name c) (category_tag_list c))).
    destruct (for_each map_category cfg _) as [m'|e].
    + destruct IH as [Hall2 ->]. split; [by apply Forall_app | done].
    + destruct IH as [Hex ->]. split; [|done]. apply Exists_app. by right.
  - destruct H1 as [Hex ->]. split; [|done]. apply Exists_app. by left.
Qed.

(** X10. The category mapping of the report reads the ["value"] key of
    the specifications only: it raises [KeyError] for ["value"] exactly
    when some specification has no value, and a specification without
    ["geometry"] does not matter to it.  A configuration from which the
    extraction built its tables always gives the report its mapping. *)
Theorem category_mapping_needs_values_only cfg :
  (Exists (λ d, value d.2 = None) (declarations cfg)
   ↔ build_category_mapping cfg = Raise (KeyError "value"))
  ∧ (Forall (λ d, is_Some (value d.2)) (declarations cfg)
     ↔ ∃ m, build_category_mapping cfg = Ok m)
  ∧ (∀ t, build_tables cfg = Ok t → ∃ m, build_category_mapping cfg = Ok m).
Proof.
  unfold build_category_mapping.
  pose proof (build_category_mapping_from cfg []) as H.
  destruct (for_each map_category cfg []) as [m|e].
  - destruct H as [Hall _]. split_and!.
    + split; [|done]. intros Hex. exfalso.
      apply Exists_exists in Hex as (d & Hd & Hnone).
      rewrite Forall_forall in Hall. destruct (Hall d Hd) as [v Hv].
      by rewrite Hnone in Hv.
    + split; eauto.
    + eauto.
  - destruct H as [Hex ->]. split_and!.
    + by split.
    + split; [|by intros [? [=]]]. intros Hall. exfalso.
      apply Exists_exists in Hex as (d & Hd & Hnone).
      rewrite Forall_forall in Hall. destruct (Hall d Hd) as [v Hv].
      by rewrite Hnone in Hv.
    + intros t Hb. exfalso.
      pose proof (build_tables_spec cfg) as Hspec. rewrite Hb in Hspec.
      destruct Hspec as (Hall & _).
      apply Exists_exists in Hex as (d & Hd & Hnone).
      rewrite Forall_forall in Hall. destruct (Hall d Hd) as [[v Hv] _].
      by rewrite Hnone in Hv.
Qed.

Lemma keys_foldl_setitem {A V} (name : A → string) (val : A → V) xs m :
  keys (foldl (λ m x, setitem m (name x) (val x)) m xs)
  = first_seen (keys m) (name <$> xs).
Proof.
  revert m. induction xs as [|x xs IH]; intros m; [done|].
  csimpl. by rewrite IH, keys_setitem.
Qed.

Lemma get_foldl_setitem_ne {A V} (name : A → string) (val : A → V) xs m n :
  Forall (λ x, name x ≠ n) xs →
  get (foldl (λ m x, setitem m (name x) (val x)) m xs) n = get m n.
Proof.
  revert m. induction xs as [|x xs IH]; intros m Hall; [done|].
  apply Forall_cons in Hall as [Hx Hall]. simpl.
  by rewrite IH, get_setitem, decide_False.
Qed.

Lemma get_foldl_setitem_last {A V} (name : A → string) (val : A → V)
    before x after m :
  Forall (λ y, name y ≠ name x) after →
  get (foldl (λ m x, setitem m (name x) (val x)) m (before ++ x :: after))
    (name x)
  = Some (val x).
Proof.
  intros Hafter. rewrite foldl_app. simpl.
  rewrite get_foldl_setitem_ne by done.
  by rewrite get_setitem, decide_True.
Qed.

Lemma get_foldl_setitem_inv {A V} (name : A → string) (val : A → V) xs m n v :
  get (foldl (λ m x, setitem m (name x) (val x)) m xs) n = Some v →
  get m n = Some v ∨ ∃ x, x ∈ xs ∧ name x = n ∧ v = val x.
Proof.
  revert m. induction xs as [|x xs IH]; intros m; [by left|].
  simpl. intros H. apply IH in H as [H|(y & ? & ? & ?)].
  - rewrite get_setitem in H. case_decide as Hn; [|by left].
    injection H as <-. right. exists x. split; [left | done].
  - right. exists y. split; [by right | done].
Qed.

Lemma elem_of_category_tag_list c tag :
  tag ∈ category_tag_list c
  ↔ ∃ k s v, (k, s) ∈ item_declarations (default [] (tags c))
             ∧ value s = Some v ∧ tag = fmt_tag k v.
Proof.
  unfold category_tag_list. rewrite elem_of_first_seen, list_elem_of_omap.
  split.
  - intros [Hnil|([k s] & Hin & Hd)]; [by apply elem_of_nil in Hnil|].
    unfold declared_tag in Hd. simpl in Hd.
    destruct (value s) as [v|] eqn:Hv; [|done]. injection Hd as <-. eauto 6.
  - intros (k & s & v & Hin & Hv & ->). right. exists (k, s).
    split; [done|]. unfold declared_tag. simpl. by rewrite Hv.
Qed.

(** X11. The category mapping has one entry for each category name, in
    the order in which the names first occur, a category without a name
    going under ["Unknown"].  The entry of a name holds the tags of the
    last category with that name, each tag once: of two categories with
    one name, the tags of the earlier one are not in the report. *)
Theorem category_mapping_keeps_last_of_a_name cfg m :
  build_category_mapping cfg = Ok m →
  keys m = first_seen [] (category_name <$> cfg)
  ∧ (∀ before c after,
       cfg = before ++ c :: after →
       Forall (λ c', category_name c' ≠ category_name c) after →
       get m (category_name c) = Some (category_tag_list c))
  ∧ (∀ name tag_list,
       get m name = Some tag_list →
       NoDup tag_list
       ∧ ∃ c, c ∈ cfg ∧ category_name c = name
              ∧ ∀ tag, tag ∈ tag_list ↔
                  ∃ k s v, (k, s) ∈ item_declarations (default [] (tags c))
                           ∧ value s = Some v ∧ tag = fmt_tag k v).
Proof.
  unfold build_category_mapping. intros Hm.
  pose proof (build_category_mapping_from cfg []) as H. rewrite Hm in H.
  destruct H as [_ ->]. split_and!.
  - by rewrite keys_foldl_setitem.
  - intros before c after -> Hafter.
    by apply (get_foldl_setitem_last category_name category_tag_list).
  - intros name tag_list Hget.
    apply get_foldl_setitem_inv in Hget as [?|(c & Hc & Hname & ->)]; [done|].
    split; [apply NoDup_first_seen, NoDup_nil_2|].
    exists c. split_and!; [done..|]. apply elem_of_category_tag_list.
Qed.

Lemma category_mapping_keeps_last_of_a_name_witness :
  build_category_mapping Sample.unnamed_twice
  = Ok [("Unknown", ["highway=cycleway"])]
  ∧ keys [("Unknown", ["highway=cycleway"])]
    = first_seen [] (category_name <$> Sample.unnamed_twice).
Proof.
  split; [reflexivity|].
  by apply (category_mapping_keeps_last_of_a_name Sample.unnamed_twice
              [("Unknown", ["highway=cycleway"])] eq_refl).
Defined.

(** ** The tag table of the report *)

Lemma append_assoc (s1 s2 s3 : string) :
  (s1 +:+ s2) +:+ s3 = s1 +:+ (s2 +:+ s3).
Proof.
  induction s1 as [|c s1 IH]; [done|].
  change (String c ((s1 +:+ s2) +:+ s3) = String c (s1 +:+ s2 +:+ s3)).
  by f_equal.
Qed.

Lemma append_empty_r (s : string) : s +:+ "" = s.
Proof.
  induction s as [|c s IH]; [done|].
  change (String c (s +:+ "") = String c s). by f_equal.
Qed.

Lemma concat_strings_app parts1 parts2 :
  concat_strings (parts1 ++ parts2)
  = concat_strings parts1 +:+ concat_strings parts2.
Proof.
  induction parts1 as [|p parts1 IH]; [done|]. simpl.
  by rewrite IH, append_assoc.
Qed.

Lemma rowspan_length tag_counts tags :
  rowspan tag_counts tags
  = length (filter (λ t, 0 < count_of tag_counts t) tags).
Proof.
  unfold rowspan. induction (filter _ tags) as [|t l IH]; [done|].
  simpl. by rewrite IH.
Qed.

(** The loop over the tags once the category has its first row. *)
Lemma add_tag_rows_after_first tag_counts category tags html ts :
  foldl (add_tag_row tag_counts category tags) (html, false) ts
  = (html +:+ concat_strings
                ((λ t, next_row t (count_of tag_counts t))
                   <$> filter (λ t, 0 < count_of tag_counts t) ts),
     false).
Proof.
  revert html. induction ts as [|t ts IH]; intros html.
  { simpl. by rewrite append_empty_r. }
  rewrite filter_cons. simpl. case_decide as Hpos.
  - rewrite IH. csimpl. by rewrite append_assoc.
  - apply IH.
Qed.

(** The loop over the tags of a category from its start. *)
Lemma add_tag_rows_from_start tag_counts category tags html ts :
  (foldl (add_tag_row tag_counts category tags) (html, true) ts).1
  = html +:+ concat_strings
      match filter (λ t, 0 < count_of tag_counts t) ts with
      | [] => []
      | t :: more =>
          first_row category t (rowspan tag_counts tags)
            (count_of tag_counts t)
          :: ((λ t, next_row t (count_of tag_counts t)) <$> more)
      end.
Proof.
  revert html. induction ts as [|t ts IH]; intros html.
  { simpl. by rewrite append_empty_r. }
  rewrite filter_cons. simpl. case_decide as Hpos.
  - rewrite add_tag_rows_after_first. simpl. by rewrite append_assoc.
  - apply IH.
Qed.

Lemma add_category_rows_spec tag_counts html item :
  add_category_rows tag_counts html item
  = html +:+ concat_strings
               (render_row <$> category_rows tag_counts item.1 item.2).
Proof.
  unfold add_category_rows. rewrite add_tag_rows_from_start.
  unfold category_rows. rewrite rowspan_length.
  destruct (filter _ item.2) as [|t more]; [done|].
  csimpl. unfold render_row at 1. simpl. do 3 f_equal.
  by rewrite <- list_fmap_compose.
Qed.

(** X12. The loops of the tag table append to the page exactly one row
    for each tag of the mapping that some feature has, category by
    category and tag by tag in the order of the mapping.  The first row
    of a category carries the category name with the [rowspan] that the
    code computes, and this is the number of rows of the category; a
    category none of whose tags occurs adds nothing. *)
Theorem tag_table_rows tag_counts category_mapping html :
  add_tag_table tag_counts category_mapping html
  = html +:+ concat_strings
               (render_row <$> table_rows tag_counts category_mapping)
  ∧ Forall
      (λ item,
         let rows := category_rows tag_counts item.1 item.2 in
         row_tag <$> rows
         = filter (λ t, 0 < count_of tag_counts t) item.2
         ∧ Forall (λ row, row_count row = count_of tag_counts (row_tag row)
                          ∧ 0 < row_count row) rows
         ∧ match rows with
           | [] => True
           | row :: more =>
               row_category row
               = Some (item.1, rowspan tag_counts item.2)
               ∧ rowspan tag_counts item.2 = length rows
               ∧ Forall (λ row', row_category row' = None) more
           end)
      category_mapping.
Proof.
  split.
  - unfold add_tag_table, table_rows. revert html.
    induction category_mapping as [|item m IH]; intros html.
    { simpl. by rewrite append_empty_r. }
    rewrite bind_cons, fmap_app, concat_strings_app. simpl.
    by rewrite IH, add_category_rows_spec, append_assoc.
  - apply Forall_forall. intros [category tags] _. simpl.
    unfold category_rows. rewrite rowspan_length.
    assert (Forall (λ t, 0 < count_of tag_counts t)
              (filter (λ t, 0 < count_of tag_counts t) tags)) as Hpos.
    { apply Forall_forall. by intros t [? _]%list_elem_of_filter. }
    destruct (filter _ tags) as [|t more]; [done|].
    apply Forall_cons in Hpos as [Ht Hmore]. split_and!.
    + csimpl. f_equal. rewrite <- list_fmap_compose. apply list_fmap_id.
    + constructor; [done|]. apply Forall_fmap.
      by eapply Forall_impl; [done|].
    + done.
    + simpl. by rewrite length_fmap.
    + by apply Forall_fmap, Forall_true.
Qed.

(** ** Counts in the tag table *)

Lemma value_counts_lookup column c :
  default 0 (value_counts column !! c)
  = if notna c then length (filter (λ x, x = c) column) else 0.
Proof.
  induction column as [|x column IH]; [by destruct (notna c)|].
  simpl. rewrite filter_cons. destruct (notna x) eqn:Hx.
  - destruct (decide (x = c)) as [->|Hne].
    + rewrite lookup_insert_eq, Hx. simpl. f_equal.
      by rewrite IH, Hx.
    + by rewrite lookup_insert_ne.
  - rewrite IH. destruct (notna c) eqn:Hc; [|done].
    rewrite decide_False; [done|]. intros ->. congruence.
Qed.

Lemma count_of_value_counts column tag :
  count_of (value_counts column) tag
  = length (filter (λ x, x = Str tag) column).
Proof. unfold count_of. by rewrite value_counts_lookup. Qed.

Lemma sum_list_positive {A} (f : A → nat) (l : list A) :
  sum_list (f <$> filter (λ x, 0 < f x) l) = sum_list (f <$> l).
Proof.
  induction l as [|x l IH]; [done|]. rewrite filter_cons. csimpl.
  case_decide; csimpl; lia.
Qed.

Lemma category_rows_sum tag_counts category tags :
  sum_list (row_count <$> category_rows tag_counts category tags)
  = sum_list (count_of tag_counts <$> tags).
Proof.
  rewrite <- (sum_list_positive (count_of tag_counts) tags).
  unfold category_rows. destruct (filter _ tags) as [|t more]; [done|].
  csimpl. by rewrite <- list_fmap_compose.
Qed.

Lemma table_rows_sum tag_counts category_mapping :
  sum_list (row_count <$> table_rows tag_counts category_mapping)
  = sum_list (count_of tag_counts <$> listed_tags category_mapping).
Proof.
  unfold table_rows, listed_tags.
  induction category_mapping as [|item m IH]; [done|].
  rewrite !bind_cons, !fmap_app, !sum_list_with_app, IH.
  by rewrite category_rows_sum.
Qed.

Lemma length_filter_or {A} `{EqDecision A} (a : A) (P : A → Prop)
    `{∀ x, Decision (P x)} (l : list A) :
  ¬ P a →
  length (filter (λ x, x = a ∨ P x) l)
  = length (filter (λ x, x = a) l) + length (filter P l).
Proof.
  intros Ha. induction l as [|x l IH]; [done|]. rewrite !filter_cons.
  destruct (decide (x = a)) as [->|Hne].
  - rewrite decide_True by (by left). rewrite (decide_False (P:=P a)) by done.
    simpl. lia.
  - destruct (decide (P x)) as [Hp|Hp].
    + rewrite decide_True by (by right). simpl. lia.
    + rewrite decide_False by (by intros [?|?]). done.
Qed.

(** Occurrences of the tags of a duplicate-free list, added up. *)
Lemma sum_of_counts (column : list cell) (tags : list string) :
  NoDup tags →
  sum_list ((λ t, length (filter (λ x, x = Str t) column)) <$> tags)
  = length (filter (λ x, x ∈ Str <$> tags) column).
Proof.
  induction 1 as [|t tags Hnot _ IH]; csimpl.
  { induction column as [|x column IHc]; [done|].
    rewrite filter_cons, decide_False; [done|]. apply not_elem_of_nil. }
  rewrite IH.
  rewrite <- (length_filter_or (Str t) (λ x, x ∈ Str <$> tags)).
  - f_equal. apply list_filter_iff. intros x. by rewrite elem_of_cons.
  - intros (t' & [= <-] & ?)%list_elem_of_fmap. done.
Qed.

(** X13. When no tag is listed under two categories and every feature of
    the frame carries one of the listed tags, the counts of the tag table
    add up to the number of features: each feature is counted in one row
    and only one. *)
Theorem tag_table_counts_every_feature gdf category_mapping column :
  frame_getitem gdf "osm_tag" = Ok column →
  NoDup (listed_tags category_mapping) →
  Forall (λ c, ∃ tag, tag ∈ listed_tags category_mapping ∧ c = Str tag)
    column →
  sum_list (row_count <$> table_rows (value_counts column) category_mapping)
  = length (records gdf).
Proof.
  intros Hcol Hnodup Hall. rewrite table_rows_sum.
  rewrite (list_fmap_ext (count_of (value_counts column))
             (λ t, length (filter (λ x, x = Str t) column)))
    by (intros; apply count_of_value_counts).
  rewrite sum_of_counts by done.
  unfold frame_getitem in Hcol. case_bool_decide; [|done].
  injection Hcol as <-.
  rewrite <- (length_fmap (λ r : record, default NaN (r !! "osm_tag"))
                (records gdf)).
  apply length_filter_all. eapply Forall_impl; [done|].
  intros c (tag & Hin & ->). by apply list_elem_of_fmap_2.
Qed.

Lemma tag_table_counts_every_feature_witness :
  sum_list
    (row_count
       <$> table_rows (value_counts [Str "leisure=park"; Str "leisure=park"])
             [("Green", ["leisure=park"])])
  = 2.
Proof.
  apply (tag_table_counts_every_feature
           (mkFrame ["name"; "osm_tag"; "geometry"]
              [ {[ "osm_tag" := Str "leisure=park";
                   "geometry" := Sample.polygon ]};
                {[ "osm_tag" := Str "leisure=park";
                   "geometry" := Sample.point ]} ])
           [("Green", ["leisure=park"])]
           [Str "leisure=park"; Str "leisure=park"]).
  - by_evaluation.
  - by_evaluation.
  - repeat constructor; exists "leisure=park"; (split; [by_evaluation | done]).
Defined.

(** ** The report on the output of the extraction *)

Lemma get_elem_of {V} (d : dict V) k v : get d k = Some v → (k, v) ∈ d.
Proof.
  induction d as [|[k' v'] d IH]; [done|]. simpl. case_decide as Hk.
  - intros [= ->]. subst. left.
  - intros H. right. by apply IH.
Qed.

Lemma declarations_category cfg decl :
  decl ∈ declarations cfg
  ↔ ∃ c, c ∈ cfg ∧ decl ∈ item_declarations (default [] (tags c)).
Proof.
  induction cfg as [|c cfg IH].
  { split; [by intros ?%elem_of_nil | by intros (? & ?%elem_of_nil & _)]. }
  rewrite declarations_cons, elem_of_app, IH. setoid_rewrite elem_of_cons.
  split.
  - intros [?|(c' & ? & ?)]; eauto.
  - intros (c' & [->|?] & ?); eauto.
Qed.

Lemma NoDup_fmap_split {A B} (f : A → B) (l : list A) x :
  NoDup (f <$> l) → x ∈ l →
  ∃ before after, l = before ++ x :: after
                  ∧ Forall (λ y, f y ≠ f x) after.
Proof.
  intros Hnd Hx. apply list_elem_of_split in Hx as (before & after & ->).
  exists before, after. split; [done|].
  rewrite fmap_app, fmap_cons in Hnd.
  apply NoDup_app in Hnd as (_ & _ & Hnd).
  apply NoDup_cons in Hnd as [Hnot _].
  apply Forall_forall. intros y Hy Heq. apply Hnot. rewrite <- Heq.
  by apply list_elem_of_fmap_2.
Qed.

Lemma elem_of_table_rows tag_counts category_mapping tag :
  tag ∈ row_tag <$> table_rows tag_counts category_mapping
  ↔ 0 < count_of tag_counts tag ∧ tag ∈ listed_tags category_mapping.
Proof.
  unfold table_rows, listed_tags.
  induction category_mapping as [|[category tags] m IH].
  { split; [by intros ?%elem_of_nil | by intros [_ ?%elem_of_nil]]. }
  rewrite !bind_cons, fmap_app, !elem_of_app, IH. simpl.
  assert (row_tag <$> category_rows tag_counts category tags
          = filter (λ t, 0 < count_of tag_counts t) tags) as ->.
  { unfold category_rows. destruct (filter _ tags) as [|t more]; [done|].
    csimpl. f_equal. rewrite <- list_fmap_compose. apply list_fmap_id. }
  rewrite list_elem_of_filter. tauto.
Qed.

Lemma build_category_mapping_of_tables cfg t :
  build_tables cfg = Ok t → ∃ m, build_category_mapping cfg = Ok m.
Proof.
  intros Hb. unfold build_category_mapping.
  pose proof (build_category_mapping_from cfg []) as H.
  destruct (for_each map_category cfg []) as [m|e]; [eauto|].
  destruct H as [Hex _]. exfalso.
  pose proof (build_tables_spec cfg) as Hspec. rewrite Hb in Hspec.
  destruct Hspec as (Hall & _).
  apply Exists_exists in Hex as (d & Hd & Hnone).
  rewrite Forall_forall in Hall. destruct (Hall d Hd) as [[v Hv] _].
  by rewrite Hnone in Hv.
Qed.

Lemma category_mapping_last_entry cfg m before c after :
  build_category_mapping cfg = Ok m →
  cfg = before ++ c :: after →
  Forall (λ c', category_name c' ≠ category_name c) after →
  get m (category_name c) = Some (category_tag_list c).
Proof.
  unfold build_category_mapping. intros Hm -> Hafter.
  pose proof (build_category_mapping_from (before ++ c :: after) []) as H.
  rewrite Hm in H. destruct H as [_ ->].
  by apply (get_foldl_setitem_last category_name category_tag_list).
Qed.

Lemma tag_table_total (records_of : list record) category_mapping :
  NoDup (listed_tags category_mapping) →
  Forall (λ c, ∃ tag, tag ∈ listed_tags category_mapping ∧ c = Str tag)
    ((λ r : record, default NaN (r !! "osm_tag")) <$> records_of) →
  sum_list
    (row_count
       <$> table_rows
             (value_counts
                ((λ r : record, default NaN (r !! "osm_tag")) <$> records_of))
             category_mapping)
  = length records_of.
Proof.
  intros Hnodup Hall. rewrite table_rows_sum.
  rewrite (list_fmap_ext (count_of (value_counts _))
             (λ t, length (filter (λ x, x = Str t)
                (( λ r : record, default NaN (r !! "osm_tag")) <$> records_of))))
    by (intros; apply count_of_value_counts).
  rewrite sum_of_counts by done.
  assert (length records_of
          = length ((λ r : record, default NaN (r !! "osm_tag"))
                      <$> records_of)) as -> by (by rewrite length_fmap).
  apply length_filter_all. eapply Forall_impl; [done|].
  intros c (tag & Hin & ->). by apply list_elem_of_fmap_2.
Qed.

(** X14. When the category names of the configuration are all different,
    the report misses no extracted feature: the tag of every output
    record is listed in the category mapping and has a row in the tag
    table; and when in addition no tag is listed twice, the counts of
    the table add up to the number of output records. *)
Theorem report_covers_the_output cfg t df :
  build_tables cfg = Ok t → geo_frame df →
  NoDup (category_name <$> cfg) →
  ∃ out d m column,
    extract_selected_tags_from_osm_complete cfg df = Ok (out, d)
    ∧ build_category_mapping cfg = Ok m
    ∧ frame_getitem out "osm_tag" = Ok column
    ∧ (∀ o : record, o ∈ records out →
         ∃ tag, o !! "osm_tag" = Some (Str tag)
                ∧ tag ∈ listed_tags m
                ∧ tag ∈ row_tag <$> table_rows (value_counts column) m)
    ∧ (NoDup (listed_tags m) →
       sum_list (row_count <$> table_rows (value_counts column) m)
       = length (records out)).
Proof.
  intros Hb Hgeo Hnames.
  destruct (build_category_mapping_of_tables cfg t Hb) as [m Hm].
  pose proof (extract_spec cfg t df Hb Hgeo) as Hrun.
  set (out := mkFrame _ _) in Hrun. set (d := diagnostics_of _ _) in Hrun.
  exists out, d, m,
    ((λ r : record, default NaN (r !! "osm_tag")) <$> records out).
  assert (frame_getitem out "osm_tag"
          = Ok ((λ r : record, default NaN (r !! "osm_tag")) <$> records out))
    as Hcol by (unfold frame_getitem; by rewrite bool_decide_eq_true_2
                  by (apply (bool_decide_unpack _); by vm_compute)).
  assert (∀ o : record, o ∈ records out →
            ∃ tag, o !! "osm_tag" = Some (Str tag) ∧ tag ∈ listed_tags m)
    as Hlisted.
  { intros o Ho. unfold out in Ho. simpl in Ho.
    apply list_elem_of_fmap in Ho as (r & -> & Hr).
    apply list_elem_of_filter in Hr as [Hkeep Hr].
    apply list_elem_of_fmap in Hr as (r0 & -> & _).
    destruct (decision_of t (tagged t (columns df) r0)) eqn:Hdec; [|done].
    apply accept_Keep_inv in Hdec as (tag & allowed & Hcell & Hl).
    unfold tag_cell, tagged in Hcell. rewrite lookup_insert_eq in Hcell.
    simpl in Hcell. injection Hcell as Htag.
    destruct (output_record_of_tagged (bool_decide ("name" ∈ columns df))
                t (columns df) r0) as (Ho & _).
    exists tag. split; [by rewrite Ho, Htag|].
    destruct (lookup_declared cfg t tag allowed Hb Hl)
      as (k & s & v & Hks & Hv & -> & _).
    apply declarations_category in Hks as (c & Hc & Hks).
    destruct (NoDup_fmap_split category_name cfg c Hnames Hc)
      as (before & after & Hcfg & Hafter).
    pose proof (category_mapping_last_entry cfg m before c after
                  Hm Hcfg Hafter) as Hget.
    apply get_elem_of in Hget. unfold listed_tags.
    apply list_elem_of_bind. exists (category_name c, category_tag_list c).
    split; [|done]. simpl. apply elem_of_category_tag_list. eauto 6. }
  split_and!; [done..| |].
  - intros o Ho. destruct (Hlisted o Ho) as (tag & Htag & Hin).
    exists tag. split_and!; [done..|]. apply elem_of_table_rows.
    split; [|done]. rewrite count_of_value_counts.
    assert (Str tag ∈ filter (λ x, x = Str tag)
              ((λ r : record, default NaN (r !! "osm_tag")) <$> records out))
      as Hmem.
    { apply list_elem_of_filter. split; [done|].
      apply list_elem_of_fmap. exists o. by rewrite Htag. }
    destruct (filter _ _); [by apply elem_of_nil in Hmem | simpl; lia].
  - intros Hnodup. apply tag_table_total; [done|].
    apply Forall_fmap, Forall_forall. intros o Ho. simpl.
    destruct (Hlisted o Ho) as (tag & -> & Hin). eauto.
Qed.

Lemma report_covers_the_output_witness :
  ∃ out d m column,
    extract_selected_tags_from_osm_complete Sample.park_area Sample.frame
    = Ok (out, d)
    ∧ build_category_mapping Sample.park_area = Ok m
    ∧ frame_getitem out "osm_tag" = Ok column
    ∧ sum_list (row_count <$> table_rows (value_counts column) m)
      = length (records out).
Proof.
  destruct (report_covers_the_output Sample.park_area Sample.park_tables
              Sample.frame)
    as (out & d & m & column & Hrun & Hm & Hcol & _ & Hsum).
  - by_evaluation.
  - exact geo_frame_sample.
  - by_evaluation.
  - exists out, d, m, column. split_and!; [done..|].
    apply Hsum.
    assert (m = [("Green", ["leisure=park"])]) as ->.
    { assert (build_category_mapping Sample.park_area
              = Ok [("Green", ["leisure=park"])]) as Hval by reflexivity.
      rewrite Hval in Hm. by injection Hm as <-. }
    by_evaluation.
Defined.

(** ** Declarations that form the same tag *)

(** C5, the claim as stated fails: two categories declare the pair [a],
    [b=c], with [area] and then with [point]; a third category declares
    the pair [a=b], [c] with [line].  The three declarations form the
    same tag, and the lookup holds under it the constraint of the third,
    not the one of the later declaration of the pair. *)
Lemma colliding_pair_overrides_later_declaration :
  declarations Sample.colliding_pairs
  = [ ("a", TagSpec (Some "b=c") (Some (GStr "area")));
      ("a", TagSpec (Some "b=c") (Some (GStr "point")));
      ("a=b", TagSpec (Some "c") (Some (GStr "line"))) ]
  ∧ fmt_tag "a=b" "c" = fmt_tag "a" "b=c"
  ∧ ∃ t, build_tables Sample.colliding_pairs = Ok t
         ∧ geometry_lookup t !! fmt_tag "a" "b=c" = Some (GStr "line")
         ∧ geometry_lookup t !! fmt_tag "a" "b=c" ≠ Some (GStr "point").
Proof.
  split_and!; [reflexivity..|].
  exists (Tables [("a", ["b=c"]); ("a=b", ["c"])] {[ "a=b=c" := GStr "line" ]}).
  split_and!; [by_evaluation | by_evaluation | by_evaluation].
Qed.

(** ** Determinism *)

(** C9. What a run returns is fixed by the configuration and the feature
    frame.  The kept records come in the order of the frame, each with
    the geometry and the tag of its feature, so the same rows in the same
    order give the same kept sequence; and neither the two sets of
    diagnostics nor the members of the kept sequence depend on the order
    in which the rows are visited: a frame with the same rows in another
    order gives the same two sets and the same kept records. *)
Theorem extraction_is_deterministic cfg t df df' :
  build_tables cfg = Ok t →
  geo_frame df →
  columns df' = columns df →
  records df' ≡ₚ records df →
  ∃ out d out' d',
    extract_selected_tags_from_osm_complete cfg df = Ok (out, d)
    ∧ extract_selected_tags_from_osm_complete cfg df' = Ok (out', d')
    ∧ unknown_tags d' = unknown_tags d
    ∧ excluded_by_geometry d' = excluded_by_geometry d
    ∧ columns out' = columns out
    ∧ records out' ≡ₚ records out
    ∧ (records df' = records df → records out' = records out)
    ∧ ∃ selected,
        selected `sublist_of` records df
        ∧ Forall2
            (λ (r o : record),
               o !! "geometry" = r !! "geometry"
               ∧ ∃ tag,
                   get_osm_tag (osm_query_tags t) (mkSeries (columns df) r)
                   = Ok tag
                   ∧ o !! "osm_tag" = Some (Str tag))
            selected (records out).
Proof.
  intros Hb Hgeo Hcols Hperm. destruct df' as [cols' recs']. simpl in *.
  subst cols'.
  assert (geo_frame (mkFrame (columns df) recs')) as Hgeo'.
  { destruct Hgeo as [Hcol Hrows]. split; [done|]. simpl.
    rewrite Forall_forall in Hrows |- *. intros r Hr. apply Hrows.
    by rewrite <- Hperm. }
  rewrite (extract_spec cfg t df Hb Hgeo).
  rewrite (extract_spec cfg t _ Hb Hgeo'). simpl.
  assert (tagged t (columns df) <$> recs'
          ≡ₚ tagged t (columns df) <$> records df) as Htagged
    by (by apply fmap_Permutation).
  eexists _, _, _, _. split; [done|]. split; [done|]. simpl.
  rewrite (diagnostics_of_Permutation t _ _ Htagged).
  split_and!; [done..| | |].
  - by apply fmap_Permutation, filter_Permutation.
  - by intros ->.
  - exists (filter
              (λ r, keeps (decision_of t (tagged t (columns df) r)) = true)
              (records df)).
    split; [apply sublist_filter|].
    rewrite filter_fmap_comm, <- list_fmap_compose.
    apply Forall2_fmap_r, Forall_Forall2_diag, Forall_forall.
    intros r _. simpl.
    destruct (output_record_of_tagged (bool_decide ("name" ∈ columns df))
                t (columns df) r) as (Htag & Hg & _).
    split; [done|]. exists (tag_of t (columns df) r).
    split; [apply tag_of_get_osm_tag | done].
Qed.

Lemma extraction_is_deterministic_witness :
  ∃ out d out' d',
    extract_selected_tags_from_osm_complete Sample.park_area Sample.frame
    = Ok (out, d)
    ∧ extract_selected_tags_from_osm_complete Sample.park_area
        Sample.frame_reversed = Ok (out', d')
    ∧ unknown_tags d' = unknown_tags d
    ∧ excluded_by_geometry d' = excluded_by_geometry d
    ∧ records out' ≡ₚ records out.
Proof.
  destruct (extraction_is_deterministic Sample.park_area Sample.park_tables
              Sample.frame Sample.frame_reversed)
    as (out & d & out' & d' & Hrun & Hrun' & Hunk & Hexc & _ & Hkept & _).
  - by_evaluation.
  - exact geo_frame_sample.
  - reflexivity.
  - apply reverse_Permutation.
  - exists out, d, out', d'. by split_and!.
Defined.
